(** * Contacts address book: repository layer and its HTTP routes

    A shallow embedding of [src/repository/contacts.py] and of the handlers
    of [src/routes/contacts.py] that call it.  The relational table is a list
    of rows in the store's natural order, the ORM session is an explicit
    state, Python exceptions and database errors are the [Err] branch of a
    result type, and the clock read by [date.today()] is an input. *)

From Stdlib Require Import ZArith List String Ascii Bool Lia.
From Stdlib Require Import DecimalString DecimalN Permutation.
Import ListNotations.
Local Open Scope Z_scope.

(** ** Failures *)

Inductive error : Type :=
| OverflowError          (* Python: timedelta or date arithmetic out of range *)
| UnboundLocalError      (* Python: local variable read before assignment *)
| AttributeError         (* Python: attribute missing on an object *)
| MultipleResultsFound   (* SQLAlchemy: scalar_one_or_none saw several rows *)
| DatetimeFieldOverflow  (* PostgreSQL: date/time field value out of range *)
| InvalidDatetimeFormat  (* PostgreSQL: to_date could not read a field *)
| InvalidRowCount        (* PostgreSQL: LIMIT or OFFSET must not be negative *)
| InvalidRequestError    (* SQLAlchemy: refresh of a row that is gone *)
| DataError.             (* asyncpg: a value outside its integer type *)

Inductive result (A : Type) : Type :=
| Ok (a : A)
| Err (e : error).
Arguments Ok {A} a.
Arguments Err {A} e.

Definition bind {A B : Type} (r : result A) (k : A -> result B) : result B :=
  match r with
  | Ok a => k a
  | Err e => Err e
  end.

Declare Scope result_scope.
Delimit Scope result_scope with result.
Notation "'do' x <- r ; k" := (bind r (fun x => k))
  (at level 10, x name, r at level 100, k at level 200) : result_scope.
Local Open Scope result_scope.

(** ** The proleptic Gregorian calendar of Python's [datetime.date] *)

Module Calendar.

Record date : Type := mkDate { year : Z; month : Z; day : Z }.

Definition MINYEAR : Z := 1.
Definition MAXYEAR : Z := 9999.
(** [date.max.toordinal()], the ordinal of 9999-12-31. *)
Definition MAXORDINAL : Z := 3652059.

Definition is_leap (y : Z) : bool :=
  (y mod 4 =? 0) && (negb (y mod 100 =? 0) || (y mod 400 =? 0)).

Definition DAYS_IN_MONTH (m : Z) : Z :=
  match m with
  | 1 => 31 | 2 => 28 | 3 => 31 | 4 => 30 | 5 => 31 | 6 => 30
  | 7 => 31 | 8 => 31 | 9 => 30 | 10 => 31 | 11 => 30 | 12 => 31
  | _ => -1
  end.

Definition DAYS_BEFORE_MONTH (m : Z) : Z :=
  match m with
  | 1 => 0 | 2 => 31 | 3 => 59 | 4 => 90 | 5 => 120 | 6 => 151
  | 7 => 181 | 8 => 212 | 9 => 243 | 10 => 273 | 11 => 304 | 12 => 334
  | _ => -1
  end.

Definition days_in_month (y m : Z) : Z :=
  if (m =? 2) && is_leap y then 29 else DAYS_IN_MONTH m.

Definition days_before_year (y : Z) : Z :=
  let p := y - 1 in p * 365 + p / 4 - p / 100 + p / 400.

Definition days_before_month (y m : Z) : Z :=
  DAYS_BEFORE_MONTH m + (if (2 <? m) && is_leap y then 1 else 0).

(** A triple is a calendar date when the year is in Python's range, the
    month in 1..12 and the day in 1..days_in_month. *)
Definition valid_ymd (y m d : Z) : bool :=
  (MINYEAR <=? y) && (y <=? MAXYEAR) &&
  (1 <=? m) && (m <=? 12) &&
  (1 <=? d) && (d <=? days_in_month y m).

Definition valid_date (d : date) : bool := valid_ymd (year d) (month d) (day d).

Definition ymd2ord (y m d : Z) : Z :=
  days_before_year y + days_before_month y m + d.

Definition toordinal (d : date) : Z := ymd2ord (year d) (month d) (day d).

Definition DI400Y : Z := 146097.
Definition DI100Y : Z := 36524.
Definition DI4Y : Z := 1461.

(** Month and day from the zero-based day [n] of a year: the estimate
    [(n + 50) >> 5] is one too large when [n] lies before that month. *)
Definition month_day (leapyear : bool) (n : Z) : Z * Z :=
  let mo := Z.shiftr (n + 50) 5 in
  let preceding :=
    DAYS_BEFORE_MONTH mo + (if (2 <? mo) && leapyear then 1 else 0) in
  if n <? preceding then
    (mo - 1,
     n - (preceding -
          (DAYS_IN_MONTH (mo - 1) +
           (if (mo - 1 =? 2) && leapyear then 1 else 0))) + 1)
  else (mo, n - preceding + 1).

(** [date.fromordinal]: the 400/100/4/1-year cycle decomposition. *)
Definition fromordinal (n : Z) : date :=
  let n := n - 1 in
  let n400 := n / DI400Y in
  let n := n mod DI400Y in
  let y := n400 * 400 + 1 in
  let n100 := n / DI100Y in
  let n := n mod DI100Y in
  let n4 := n / DI4Y in
  let n := n mod DI4Y in
  let n1 := n / 365 in
  let n := n mod 365 in
  let y := y + (n100 * 100 + n4 * 4 + n1) in
  if (n1 =? 4) || (n100 =? 4) then mkDate (y - 1) 12 31
  else
    let leapyear := (n1 =? 3) && (negb (n4 =? 24) || (n100 =? 3)) in
    let md := month_day leapyear n in
    mkDate y (fst md) (snd md).

(** The decidable statement that [month_day] is right at [n]. *)
Definition month_day_ok (leapyear : bool) (n : Z) : bool :=
  let m := fst (month_day leapyear n) in
  let d := snd (month_day leapyear n) in
  (1 <=? m) && (m <=? 12) && (1 <=? d) &&
  (d <=? DAYS_IN_MONTH m + (if (m =? 2) && leapyear then 1 else 0)) &&
  (DAYS_BEFORE_MONTH m + (if (2 <? m) && leapyear then 1 else 0) + d =? n + 1).

(** [timedelta(days=days)] accepts a magnitude of at most 999999999 days. *)
Definition timedelta (days : Z) : result Z :=
  if Z.abs days <=? 999999999 then Ok days else Err OverflowError.

(** [date.__add__]: the sum must stay within [date.min, date.max]. *)
Definition date_add (d : date) (delta : Z) : result date :=
  let o := toordinal d + delta in
  if (0 <? o) && (o <=? MAXORDINAL) then Ok (fromordinal o)
  else Err OverflowError.

(** Dates compare by their day number, as PostgreSQL's [date] does. *)
Definition date_leb (a b : date) : bool := toordinal a <=? toordinal b.

(** SQL [x BETWEEN lo AND hi], inclusive at both ends. *)
Definition between (x lo hi : date) : bool := date_leb lo x && date_leb x hi.

End Calendar.

(** ** The PostgreSQL text functions the birthday query is built from *)

Module Pg.
Import Calendar.

Definition digit (n : Z) : ascii := ascii_of_nat (48 + Z.to_nat n).

(** A two-character, zero-padded field such as [DD] or [MM]. *)
Definition two_digits (n : Z) : string :=
  String (digit (n / 10)) (String (digit (n mod 10)) EmptyString).

(** [to_char(d, 'DDMM')]: day of month then month, two digits each; the
    year of [d] takes no part. *)
Definition to_char_DDMM (d : date) : string :=
  two_digits (day d) ++ two_digits (month d).

(** The text of an integer argument of [concat]. *)
Definition text_of_int (n : Z) : string := NilZero.string_of_int (Z.to_int n).

Definition concat (s : string) (n : Z) : string := s ++ text_of_int n.

(** Reading one numeric field of a [to_date] template. *)
Definition read_field (s : string) : result Z :=
  match s with
  | EmptyString => Err InvalidDatetimeFormat
  | _ =>
    match NilEmpty.uint_of_string s with
    | Some u => Ok (Z.of_N (N.of_uint u))
    | None => Err InvalidDatetimeFormat
    end
  end.

(** Whether reading [s] gives back [n]. *)
Definition reads_back (s : string) (n : Z) : bool :=
  match read_field s with
  | Ok v => v =? n
  | Err _ => false
  end.

(** [to_date(s, 'DDMMYYYY')]: two characters of day, two of month, at most
    four of year, then the range check that rejects a day the month does not
    have. *)
Definition to_date_DDMMYYYY (s : string) : result date :=
  do d <- read_field (substring 0 2 s);
  do m <- read_field (substring 2 2 s);
  do y <- read_field (substring 4 4 s);
  if valid_ymd y m d then Ok (mkDate y m d) else Err DatetimeFieldOverflow.

End Pg.

(** ** Entities and request payload *)

Module Models.

(** Modelled from the spec: [src/entity/models.py] is not among the sources.
    A user is identified by a surrogate integer id; the email is the login
    key. *)
Record User : Type := mkUser { uid : Z; login : string }.

(** The range of an [Integer] column, PostgreSQL's [integer]. *)
Definition INT4_MIN : Z := -2147483648.
Definition INT4_MAX : Z := 2147483647.

Definition int4 (z : Z) : bool := (INT4_MIN <=? z) && (z <=? INT4_MAX).

Definition int4_dec (z : Z) : {int4 z = true} + {int4 z = false} :=
  match int4 z as b return {b = true} + {b = false} with
  | true => left eq_refl
  | false => right eq_refl
  end.

(** A value held in an [Integer] column. *)
Record Integer : Type := mkInteger { int_val : Z; int_ok : int4 int_val = true }.

(** Modelled from the spec: [src/entity/models.py] is not among the sources.
    A contact has a surrogate integer id (the primary key, an [Integer]
    column), four text attributes, a birthday, an optional description and
    the id of its one owning user. *)
Record Contact : Type := mkContact {
  pk : Integer;
  name : string;
  surname : string;
  email : string;
  phone_number : string;
  birthday : Calendar.date;
  description : option string;
  user_id : Z
}.

(** [contact.id], the Python int read from the primary key. *)
Definition id (c : Contact) : Z := int_val (pk c).

End Models.

Module Schemas.

(** Modelled from the spec: [src/schemas/contact.py] is not among the
    sources.  The payload carries every attribute of a contact but its id
    and owner; the description may be absent. *)
Record ContactSchema : Type := mkContactSchema {
  name : string;
  surname : string;
  email : string;
  phone_number : string;
  birthday : Calendar.date;
  description : option string
}.

End Schemas.

(** ** The session and the SQL it runs *)

Module Db.
Import Models.

(** The table in its natural order, the sequence that numbers new rows, and
    the number of commits issued so far. *)
Record AsyncSession : Type := mkSession {
  table : list Contact;
  next_id : Z;
  commits : nat
}.

(** [WHERE p], for a condition whose evaluation may raise on a row: the
    statement fails at the first row that raises. *)
Fixpoint select_where (p : Contact -> result bool) (rows : list Contact)
  : result (list Contact) :=
  match rows with
  | [] => Ok []
  | c :: rest =>
    do keep <- p c;
    do tl <- select_where p rest;
    Ok (if keep then c :: tl else tl)
  end.

(** The range of PostgreSQL's [bigint]. *)
Definition INT8_MIN : Z := -9223372036854775808.
Definition INT8_MAX : Z := 9223372036854775807.

Definition int8 (z : Z) : bool := (INT8_MIN <=? z) && (z <=? INT8_MAX).

(** Binding a Python int to a parameter compared with the [integer] id
    column: the driver refuses a value the type cannot hold. *)
Definition bind_int4 (z : Z) : result Z :=
  if int4 z then Ok z else Err DataError.

(** Binding a Python int to a [bigint] parameter. *)
Definition bind_int8 (z : Z) : result Z :=
  if int8 z then Ok z else Err DataError.

(** [OFFSET offset LIMIT limit]: both counts are [bigint] parameters, and
    the server rejects a negative count. *)
Definition offset_limit {A : Type} (offset limit : Z) (rows : list A)
  : result (list A) :=
  do offset <- bind_int8 offset;
  do limit <- bind_int8 limit;
  if (offset <? 0) || (limit <? 0) then Err InvalidRowCount
  else Ok (firstn (Z.to_nat limit) (skipn (Z.to_nat offset) rows)).

(** [Result.scalar_one_or_none()]. *)
Definition scalar_one_or_none {A : Type} (rows : list A) : result (option A) :=
  match rows with
  | [] => Ok None
  | [r] => Ok (Some r)
  | _ => Err MultipleResultsFound
  end.

(** [Result.scalars().all()]. *)
Definition scalars_all {A : Type} (rows : list A) : list A := rows.

(** Flushing a deleted entity: [DELETE FROM contacts WHERE id = pk]. *)
Definition flush_delete (c : Contact) (rows : list Contact) : list Contact :=
  filter (fun r => negb (id r =? id c)) rows.

(** Flushing a modified entity: [UPDATE contacts SET ... WHERE id = pk].
    The store writes the new version of the row after the rows it holds and
    drops the old one, so the natural order reads the updated row last. *)
Definition flush_update (c : Contact) (rows : list Contact) : list Contact :=
  flush_delete c rows ++ [c].

(** The next value of the sequence that numbers the rows.  The sequence of
    an [integer] column hands out no value the column cannot hold. *)
Definition nextval (db : AsyncSession) : result Integer :=
  match int4_dec (next_id db) with
  | left H => Ok (mkInteger (next_id db) H)
  | right _ => Err DataError
  end.

Definition commit (rows : list Contact) (next : Z) (db : AsyncSession)
  : AsyncSession :=
  mkSession rows next (S (commits db)).

(** [db.refresh(contact)]: the row is read again by primary key. *)
Definition refresh (db : AsyncSession) (c : Contact) : result Contact :=
  match find (fun r => id r =? id c) (table db) with
  | Some r => Ok r
  | None => Err InvalidRequestError
  end.

End Db.

(** ** [src/repository/contacts.py] *)

Module Repository.
Import Calendar Models Db.

(** The seven columns selected by [get_contacts_by_params]. *)
Definition Row : Type :=
  (Z * string * string * string * string * date * option string)%type.

Definition columns (c : Contact) : Row :=
  (id c, name c, surname c, email c, phone_number c, birthday c, description c).

(** [filter_by(user=user)]. *)
Definition owned_by (user : User) (c : Contact) : bool := user_id c =? uid user.

(** [filter_by(id=contact_id, user=user)]. *)
Definition by_id_and_user (contact_id : Z) (user : User) (c : Contact) : bool :=
  (id c =? contact_id) && owned_by user c.

Definition get_contacts (limit offset : Z) (db : AsyncSession) (user : User)
  : result (list Contact) :=
  do contacts <- offset_limit offset limit (filter (owned_by user) (table db));
  Ok (scalars_all contacts).

Definition get_contact (contact_id : Z) (db : AsyncSession) (user : User)
  : result (option Contact) :=
  do contact_id <- bind_int4 contact_id;
  scalar_one_or_none (filter (by_id_and_user contact_id user) (table db)).

(** [to_date(concat(to_char(Contact.birthday, 'DDMM'), y), 'DDMMYYYY')]. *)
Definition candidate (c : Contact) (y : Z) : result date :=
  Pg.to_date_DDMMYYYY (Pg.concat (Pg.to_char_DDMM (birthday c)) y).

(** The [or_] of the two [between] tests; the second is read only when the
    first is false. *)
Definition birthday_in_window (dateFrom dateTo : date) (thisYear nextYear : Z)
  (c : Contact) : result bool :=
  do c1 <- candidate c thisYear;
  if between c1 dateFrom dateTo then Ok true
  else
    do c2 <- candidate c nextYear;
    Ok (between c2 dateFrom dateTo).

(** [today] is the value of [date.today()] at the call.  The server tests
    the owner of a row first, the cheaper of the two conditions, and reads
    the window test only on a row of the caller; a row of the caller on
    which [to_date] fails fails the query. *)
Definition get_birthday_contacts (days : Z) (db : AsyncSession) (user : User)
  (today : date) : result (list Contact) :=
  let dateFrom := today in
  do delta <- timedelta days;
  do dateTo <- date_add today delta;
  let thisYear := year dateFrom in
  let nextYear := year dateFrom + 1 in
  do contacts <-
    select_where
      (fun c =>
         if owned_by user c
         then birthday_in_window dateFrom dateTo thisYear nextYear c
         else Ok false)
      (table db);
  Ok (scalars_all contacts).

(** The id of the new row is the next value of the sequence. *)
Definition create_contact (body : Schemas.ContactSchema) (db : AsyncSession)
  (user : User) : result (Contact * AsyncSession) :=
  do new_id <- nextval db;
  let contact :=
    mkContact new_id (Schemas.name body) (Schemas.surname body)
      (Schemas.email body) (Schemas.phone_number body) (Schemas.birthday body)
      (Schemas.description body) (uid user) in
  let db := commit (table db ++ [contact]) (next_id db + 1) db in
  do contact <- refresh db contact;
  Ok (contact, db).

Definition update_contact (contact_id : Z) (body : Schemas.ContactSchema)
  (db : AsyncSession) (user : User) : result (option Contact * AsyncSession) :=
  do contact_id <- bind_int4 contact_id;
  do contact <-
    scalar_one_or_none (filter (by_id_and_user contact_id user) (table db));
  match contact with
  | Some contact =>
    let contact :=
      mkContact (pk contact) (Schemas.name body) (Schemas.surname body)
        (Schemas.email body) (Schemas.phone_number body)
        (Schemas.birthday body) (Schemas.description body)
        (user_id contact) in
    let db := commit (flush_update contact (table db)) (next_id db) db in
    do contact <- refresh db contact;
    Ok (Some contact, db)
  | None => Ok (None, db)
  end.

Definition delete_contact (contact_id : Z) (db : AsyncSession) (user : User)
  : result (option Contact * AsyncSession) :=
  do contact_id <- bind_int4 contact_id;
  do contact <-
    scalar_one_or_none (filter (by_id_and_user contact_id user) (table db));
  match contact with
  | Some contact =>
    let db := commit (flush_delete contact (table db)) (next_id db) db in
    Ok (Some contact, db)
  | None => Ok (None, db)
  end.

(** Reading a local variable: a name no branch assigned raises. *)
Definition local {A : Type} (v : option A) : result A :=
  match v with
  | Some a => Ok a
  | None => Err UnboundLocalError
  end.

(** [stmt] is assigned in three of the four branches; the [user] argument
    takes no part in any of them. *)
Definition get_contacts_by_params (name surname email : option string)
  (db : AsyncSession) (user : User) : result (list Row) :=
  let stmt : option (Contact -> bool) :=
    match name with
    | Some name => Some (fun c => String.eqb (Models.name c) name)
    | None =>
      match surname with
      | Some surname => Some (fun c => String.eqb (Models.surname c) surname)
      | None =>
        match email with
        | Some email => Some (fun c => String.eqb (Models.email c) email)
        | None => None
        end
      end
    end in
  do stmt <- local stmt;
  Ok (map columns (filter stmt (table db))).

End Repository.

(** ** [src/routes/contacts.py] *)

Module Routes.
Import Models Db.

Inductive content : Type :=
| Contacts (l : list Contact)
| OneContact (c : Contact)
| Rows (l : list Repository.Row)
| Detail (s : string)
| NoContent.

Record Response : Type := mkResponse { status_code : Z; body : content }.

Definition HTTP_200_OK : Z := 200.
Definition HTTP_204_NO_CONTENT : Z := 204.
Definition HTTP_404_NOT_FOUND : Z := 404.
Definition HTTP_422_UNPROCESSABLE_ENTITY : Z := 422.
Definition HTTP_500_INTERNAL_SERVER_ERROR : Z := 500.

(** The values a handler can hold in its [contact] variable. *)
Inductive pyobj : Type :=
| PyNone
| PyContact (c : Contact)
| PyResult (rows : list Contact)
| PyScalarResult (rows : list Contact)
| PyList (rows : list Contact).

Definition of_option (o : option Contact) : pyobj :=
  match o with
  | Some c => PyContact c
  | None => PyNone
  end.

(** [o.scalars()]: only a query result has the method. *)
Definition scalars (o : pyobj) : result pyobj :=
  match o with
  | PyResult rows => Ok (PyScalarResult rows)
  | _ => Err AttributeError
  end.

(** [o.all()]. *)
Definition all (o : pyobj) : result pyobj :=
  match o with
  | PyResult rows | PyScalarResult rows => Ok (PyList rows)
  | _ => Err AttributeError
  end.

(** An exception no handler catches becomes a 500 response. *)
Definition server_error : Response :=
  mkResponse HTTP_500_INTERNAL_SERVER_ERROR (Detail "Internal Server Error").

Definition validation_error : Response :=
  mkResponse HTTP_422_UNPROCESSABLE_ENTITY (Detail "Unprocessable Entity").

(** [limit: Query(10, ge=10, le=500)], [offset: Query(0, ge=0)]. *)
Definition get_contacts (limit offset : Z) (db : AsyncSession) (user : User)
  : Response :=
  if (10 <=? limit) && (limit <=? 500) && (0 <=? offset) then
    match Repository.get_contacts limit offset db user with
    | Ok contacts => mkResponse HTTP_200_OK (Contacts contacts)
    | Err _ => server_error
    end
  else validation_error.

Definition get_contact (contact_id : Z) (db : AsyncSession) (user : User)
  : Response :=
  match Repository.get_contact contact_id db user with
  | Ok (Some contact) => mkResponse HTTP_200_OK (OneContact contact)
  | Ok None => mkResponse HTTP_404_NOT_FOUND (Detail "Contact not found")
  | Err _ => server_error
  end.

(** [contact_id: Path(ge=1)]. *)
Definition update_contact (body : Schemas.ContactSchema) (contact_id : Z)
  (db : AsyncSession) (user : User) : Response * AsyncSession :=
  if 1 <=? contact_id then
    match Repository.update_contact contact_id body db user with
    | Ok (Some contact, db') => (mkResponse HTTP_200_OK (OneContact contact), db')
    | Ok (None, db') =>
      (mkResponse HTTP_404_NOT_FOUND (Detail "Contact not found"), db')
    | Err _ => (server_error, db)
    end
  else (validation_error, db).

(** [contact_id: Path(ge=1)]; the handler then calls [.scalars().all()] on
    what the repository returned. *)
Definition delete_contact (contact_id : Z) (db : AsyncSession) (user : User)
  : Response * AsyncSession :=
  if 1 <=? contact_id then
    match Repository.delete_contact contact_id db user with
    | Ok (contact, db') =>
      match (do s <- scalars (of_option contact); all s) with
      | Ok _ => (mkResponse HTTP_204_NO_CONTENT NoContent, db')
      | Err _ => (server_error, db')
      end
    | Err _ => (server_error, db)
    end
  else (validation_error, db).

End Routes.

(** ** [main.py]: the health check *)

Module Main.
Import Models Db.

(** What a handler body can raise. *)
Inductive exn : Type :=
| HTTPException (status_code : Z) (detail : string)
| DatabaseError (e : error).

(** [isinstance(e, Exception)]: both classes derive from [Exception]. *)
Definition is_Exception (e : exn) : bool :=
  match e with
  | HTTPException _ _ => true
  | DatabaseError _ => true
  end.

(** [try: body except Exception as e: handler]. *)
Definition try_except {A : Type} (body : exn + A) (handler : exn -> exn + A)
  : exn + A :=
  match body with
  | inl e => if is_Exception e then handler e else inl e
  | inr a => inr a
  end.

(** [healthchecker].  [fetched] is what [db.execute(text("SELECT 1"))]
    followed by [fetchone()] gives: an error of the database, no row, or a
    row. *)
Definition healthchecker (fetched : result (option Z)) : exn + string :=
  try_except
    (match fetched with
     | Err e => inl (DatabaseError e)
     | Ok None =>
       inl (HTTPException 500 "Database is not configured correctly")
     | Ok (Some _) => inr "Welcome to FastAPI!"%string
     end)
    (fun e => inl (HTTPException 500 "Error connection to database")).

End Main.

(** ** The other handlers of [src/routes/contacts.py] *)

Module MoreRoutes.
Import Models Db.

Definition HTTP_201_CREATED : Z := 201.

Definition create_contact (body : Schemas.ContactSchema) (db : AsyncSession)
  (user : User) : Routes.Response * AsyncSession :=
  match Repository.create_contact body db user with
  | Ok (contact, db') =>
    (Routes.mkResponse HTTP_201_CREATED (Routes.OneContact contact), db')
  | Err _ => (Routes.server_error, db)
  end.

End MoreRoutes.

(** ** Vocabulary of the specification *)

Module Spec.
Import Calendar Models Db.

(** The primary-key constraint on the table, and a sequence ahead of every
    id in use. *)
Definition well_formed (db : AsyncSession) : Prop :=
  NoDup (map id (table db)) /\ forall c, In c (table db) -> id c < next_id db.

Definition leap_day (d : date) : bool := (month d =? 2) && (day d =? 29).

(** A stored birthday that is a calendar date and has an anniversary in
    every year. *)
Definition recurs_yearly (c : Contact) : bool :=
  valid_date (birthday c) && negb (leap_day (birthday c)).

(** The selector of section 9: the three optional filters resolved once, by
    checking name, then surname, then email, and using the first that is
    not absent. *)
Inductive FilterBy : Type :=
| Name (x : string)
| Surname (x : string)
| Email (x : string)
| Absent.

Definition resolve (name surname email : option string) : FilterBy :=
  match name, surname, email with
  | Some x, _, _ => Name x
  | None, Some x, _ => Surname x
  | None, None, Some x => Email x
  | None, None, None => Absent
  end.

(** Exact equality of the selected field with the supplied value. *)
Definition matches (f : FilterBy) (c : Contact) : Prop :=
  match f with
  | Name x => name c = x
  | Surname x => surname c = x
  | Email x => email c = x
  | Absent => False
  end.

(** The candidate date made of the contact's month and day and the year [y]
    exists and lies in the inclusive window from [today] to [today + days]. *)
Definition candidate_in_window (today : date) (days : Z) (c : Contact) (y : Z)
  : Prop :=
  valid_ymd y (month (birthday c)) (day (birthday c)) = true /\
  toordinal today <= ymd2ord y (month (birthday c)) (day (birthday c))
                  <= toordinal today + days.

(** The [between] test of the query on the triple of year [y]. *)
Definition hit (today dateTo : date) (c : Contact) (y : Z) : bool :=
  between (mkDate y (month (birthday c)) (day (birthday c))) today dateTo.

Definition upcoming (today : date) (days : Z) (c : Contact) : Prop :=
  candidate_in_window today days c (year today) \/
  candidate_in_window today days c (year today + 1).

End Spec.

(** ** Sample data *)

Module Samples.
Import Calendar Models Db.
Local Open Scope string_scope.

(** The key [z], for a [z] that an [Integer] column holds. *)
Definition key (z : Z) : Integer :=
  match int4_dec z with
  | left H => mkInteger z H
  | right _ => mkInteger 0 eq_refl
  end.

Definition alice : User := mkUser 1 "alice@example.com".
Definition bob : User := mkUser 2 "bob@example.com".

Definition ann : Contact :=
  mkContact (key 1) "Ann" "Lee" "ann@example.com" "0501112233"
    (mkDate 1990 1 2) (Some "met at work") 1.

Definition june : Contact :=
  mkContact (key 2) "June" "Ray" "june@example.com" "0502223344"
    (mkDate 1985 6 1) None 1.

Definition leo : Contact :=
  mkContact (key 3) "Leo" "Day" "leo@example.com" "0503334455"
    (mkDate 2000 2 29) None 1.

Definition ann_of_bob : Contact :=
  mkContact (key 4) "Ann" "Fox" "fox@example.com" "0504445566"
    (mkDate 1970 12 31) None 2.

(** Alice owns Ann and June, Bob owns the other Ann. *)
Definition db_two_owners : AsyncSession := mkSession [ann; june; ann_of_bob] 5 0.

(** Alice alone, one of her contacts born on a leap day. *)
Definition db_leap : AsyncSession := mkSession [ann; june; leo] 4 0.

Definition leo_of_bob : Contact :=
  mkContact (key 5) "Leo" "Fox" "leo.fox@example.com" "0505556677"
    (mkDate 2000 2 29) None 2.

(** Alice's two contacts, and a contact of Bob born on a leap day. *)
Definition db_leap_of_bob : AsyncSession :=
  mkSession [ann; june; leo_of_bob] 6 0.

Definition payload : Schemas.ContactSchema :=
  Schemas.mkContactSchema "Anna" "Lee-Roy" "anna@example.com" "0509998877"
    (mkDate 1990 1 3) None.

(** Twenty numbered contacts; every fourth belongs to Bob, the other fifteen
    to Alice. *)
Definition numbered (k : nat) : Contact :=
  let i := Z.of_nat k in
  mkContact (key i) "N" "S" "e@example.com" "050" (mkDate 2000 3 11) None
    (if (i mod 4 =? 0)%Z then 2 else 1).

Definition db_twenty : AsyncSession := mkSession (map numbered (seq 1 20)) 21 0.

(** 30 December of a common year that a common year follows. *)
Definition dec30 : date := mkDate 2025 12 30.

End Samples.

(** ** Calendar arithmetic *)

Module CalendarFacts.
Import Calendar.

Lemma is_leap_cycles (n400 n100 n4 n1 : Z) :
  0 <= n100 < 4 -> 0 <= n4 < 25 -> 0 <= n1 < 4 ->
  is_leap (n400 * 400 + 1 + (n100 * 100 + n4 * 4 + n1)) =
  (n1 =? 3) && (negb (n4 =? 24) || (n100 =? 3)).
Proof.
  intros H100 H4 H1. unfold is_leap.
  set (y := n400 * 400 + 1 + (n100 * 100 + n4 * 4 + n1)).
  assert (E4 : y mod 4 = (n1 + 1) mod 4).
  { unfold y. replace (n400 * 400 + 1 + (n100 * 100 + n4 * 4 + n1))
      with ((n1 + 1) + (n400 * 100 + n100 * 25 + n4) * 4) by ring.
    apply Z.mod_add. lia. }
  assert (E100 : y mod 100 = (n4 * 4 + n1 + 1) mod 100).
  { unfold y. replace (n400 * 400 + 1 + (n100 * 100 + n4 * 4 + n1))
      with ((n4 * 4 + n1 + 1) + (n400 * 4 + n100) * 100) by ring.
    apply Z.mod_add. lia. }
  assert (E400 : y mod 400 = (n100 * 100 + n4 * 4 + n1 + 1) mod 400).
  { unfold y. replace (n400 * 400 + 1 + (n100 * 100 + n4 * 4 + n1))
      with ((n100 * 100 + n4 * 4 + n1 + 1) + n400 * 400) by ring.
    apply Z.mod_add. lia. }
  rewrite E4, E100, E400.
  destruct (Z.eqb_spec n1 3) as [->|N1].
  - replace ((3 + 1) mod 4) with 0 by reflexivity. cbn [andb Z.eqb].
    destruct (Z.eqb_spec n4 24) as [->|N4].
    + replace ((24 * 4 + 3 + 1) mod 100) with 0 by reflexivity.
      cbn [negb orb Z.eqb].
      destruct (Z.eqb_spec n100 3) as [->|N100]; [reflexivity|].
      apply Z.eqb_neq. rewrite Z.mod_small by lia. lia.
    + cbn [negb orb].
      assert (Hs : (n4 * 4 + 3 + 1) mod 100 <> 0) by (rewrite Z.mod_small by lia; lia).
      apply Z.eqb_neq in Hs. rewrite Hs. reflexivity.
  - cbn [andb].
    assert (Hs : (n1 + 1) mod 4 <> 0) by (rewrite Z.mod_small by lia; lia).
    apply Z.eqb_neq in Hs. rewrite Hs. reflexivity.
Qed.


Lemma days_before_year_cycles (n400 n100 n4 n1 : Z) :
  0 <= n100 < 4 -> 0 <= n4 < 25 -> 0 <= n1 < 4 ->
  days_before_year (n400 * 400 + 1 + (n100 * 100 + n4 * 4 + n1)) =
  n400 * DI400Y + n100 * DI100Y + n4 * DI4Y + n1 * 365.
Proof.
  intros H100 H4 H1. unfold days_before_year, DI400Y, DI100Y, DI4Y.
  set (p := n400 * 400 + 1 + (n100 * 100 + n4 * 4 + n1) - 1).
  assert (E4 : p / 4 = n400 * 100 + n100 * 25 + n4).
  { symmetry. apply (Z.div_unique p 4 _ n1); unfold p; lia. }
  assert (E100 : p / 100 = n400 * 4 + n100).
  { symmetry. apply (Z.div_unique p 100 _ (n4 * 4 + n1)); unfold p; lia. }
  assert (E400 : p / 400 = n400).
  { symmetry. apply (Z.div_unique p 400 _ (n100 * 100 + n4 * 4 + n1)); unfold p; lia. }
  cbv zeta. fold p. rewrite E4, E100, E400. unfold p. ring.
Qed.

Lemma month_day_ok_all :
  forallb (fun k => month_day_ok true (Z.of_nat k) &&
                    (month_day_ok false (Z.of_nat k) || (k =? 365)%nat))
          (seq 0 366) = true.
Proof. vm_compute. reflexivity. Qed.

Lemma month_day_of_year (leapyear : bool) (n : Z) :
  0 <= n <= (if leapyear then 365 else 364) ->
  let m := fst (month_day leapyear n) in
  let d := snd (month_day leapyear n) in
  1 <= m <= 12 /\
  1 <= d <= DAYS_IN_MONTH m + (if (m =? 2) && leapyear then 1 else 0) /\
  DAYS_BEFORE_MONTH m + (if (2 <? m) && leapyear then 1 else 0) + d = n + 1.
Proof.
  intros Hn m d.
  assert (Hk : In (Z.to_nat n) (seq 0 366)).
  { apply in_seq. destruct leapyear; lia. }
  pose proof (proj1 (forallb_forall _ _) month_day_ok_all _ Hk) as Hok.
  cbv beta in Hok. rewrite Z2Nat.id in Hok by lia.
  assert (Hc : month_day_ok leapyear n = true).
  { apply andb_true_iff in Hok. destruct Hok as [Ht Hf].
    destruct leapyear; [exact Ht|].
    apply orb_true_iff in Hf. destruct Hf as [Hf|Hf]; [exact Hf|].
    apply Nat.eqb_eq in Hf. lia. }
  unfold month_day_ok in Hc. cbv zeta in Hc. fold m d in Hc.
  rewrite !andb_true_iff, !Z.leb_le, Z.eqb_eq in Hc. lia.
Qed.


Theorem toordinal_fromordinal (n : Z) :
  1 <= n -> toordinal (fromordinal n) = n.
Proof.
  intros Hn. unfold fromordinal. cbv zeta.
  set (m := n - 1).
  set (n400 := m / DI400Y). set (r1 := m mod DI400Y).
  set (n100 := r1 / DI100Y). set (r2 := r1 mod DI100Y).
  set (n4 := r2 / DI4Y). set (r3 := r2 mod DI4Y).
  set (n1 := r3 / 365). set (r4 := r3 mod 365).
  assert (Em : m = n400 * DI400Y + r1 /\ 0 <= r1 < DI400Y).
  { unfold n400, r1, DI400Y. pose proof (Z.div_mod m 146097 ltac:(lia)).
    pose proof (Z.mod_pos_bound m 146097 ltac:(lia)). lia. }
  assert (E1 : r1 = n100 * DI100Y + r2 /\ 0 <= r2 < DI100Y).
  { unfold n100, r2, DI100Y. pose proof (Z.div_mod r1 36524 ltac:(lia)).
    pose proof (Z.mod_pos_bound r1 36524 ltac:(lia)). lia. }
  assert (E2 : r2 = n4 * DI4Y + r3 /\ 0 <= r3 < DI4Y).
  { unfold n4, r3, DI4Y. pose proof (Z.div_mod r2 1461 ltac:(lia)).
    pose proof (Z.mod_pos_bound r2 1461 ltac:(lia)). lia. }
  assert (E3 : r3 = n1 * 365 + r4 /\ 0 <= r4 < 365).
  { unfold n1, r4. pose proof (Z.div_mod r3 365 ltac:(lia)).
    pose proof (Z.mod_pos_bound r3 365 ltac:(lia)). lia. }
  clearbody n400 r1 n100 r2 n4 r3 n1 r4.
  unfold DI400Y, DI100Y, DI4Y in *.
  assert (B100 : 0 <= n100 <= 4) by lia.
  assert (B4 : 0 <= n4 <= 24) by lia.
  assert (B1 : 0 <= n1 <= 4) by lia.
  destruct (Z.eqb_spec n1 4) as [N1|N1]; cbn [orb].
  - (* last day of a four-year cycle *)
    assert (n4 <= 23) by lia. assert (n100 <= 3) by lia.
    replace (n400 * 400 + 1 + (n100 * 100 + n4 * 4 + n1) - 1)
      with (n400 * 400 + 1 + (n100 * 100 + n4 * 4 + 3)) by lia.
    unfold toordinal, ymd2ord, days_before_month. cbn [year month day].
    rewrite days_before_year_cycles, is_leap_cycles by lia.
    replace (n4 =? 24) with false by (symmetry; apply Z.eqb_neq; lia).
    cbn. unfold DI400Y, DI100Y, DI4Y. lia.
  - destruct (Z.eqb_spec n100 4) as [N100|N100].
    + (* last day of a 400-year cycle *)
      replace (n400 * 400 + 1 + (n100 * 100 + n4 * 4 + n1) - 1)
        with (n400 * 400 + 1 + (3 * 100 + 24 * 4 + 3)) by lia.
      unfold toordinal, ymd2ord, days_before_month. cbn [year month day].
      rewrite days_before_year_cycles, is_leap_cycles by lia.
      cbn. unfold DI400Y, DI100Y, DI4Y. lia.
    + set (leapyear := (n1 =? 3) && (negb (n4 =? 24) || (n100 =? 3))).
      assert (Hr4 : 0 <= r4 <= (if leapyear then 365 else 364)).
      { destruct leapyear; lia. }
      pose proof (month_day_of_year leapyear r4 Hr4) as Hmd. cbv zeta in Hmd.
      unfold toordinal, ymd2ord, days_before_month. cbn [year month day].
      rewrite days_before_year_cycles, is_leap_cycles by lia.
      fold leapyear. unfold DI400Y, DI100Y, DI4Y. lia.
Qed.

End CalendarFacts.

Module PgFacts.
Import Calendar Pg.

Lemma day_of_year_bounds (y m d : Z) :
  1 <= m <= 12 -> 1 <= d <= days_in_month y m ->
  1 <= days_before_month y m + d <= 365 + (if is_leap y then 1 else 0).
Proof.
  intros Hm. unfold days_in_month, days_before_month.
  assert (Hc : m = 1 \/ m = 2 \/ m = 3 \/ m = 4 \/ m = 5 \/ m = 6 \/ m = 7 \/
               m = 8 \/ m = 9 \/ m = 10 \/ m = 11 \/ m = 12) by lia.
  destruct (is_leap y);
    repeat (destruct Hc as [->|Hc]); try subst m;
    cbn [DAYS_BEFORE_MONTH DAYS_IN_MONTH andb Z.eqb Z.ltb Z.compare
         Pos.eqb Pos.compare Pos.compare_cont]; lia.
Qed.

Lemma ordinal_bounds (y m d : Z) :
  valid_ymd y m d = true -> 1 <= ymd2ord y m d <= MAXORDINAL.
Proof.
  unfold valid_ymd, MINYEAR, MAXYEAR, MAXORDINAL.
  rewrite !andb_true_iff, !Z.leb_le. intros [[[[[Hy1 Hy2] Hm1] Hm2] Hd1] Hd2].
  pose proof (day_of_year_bounds y m d (conj Hm1 Hm2) (conj Hd1 Hd2)) as Hdoy.
  unfold ymd2ord, days_before_year. cbv zeta.
  destruct (Z.eq_dec y 9999) as [->|Hy].
  - change (is_leap 9999) with false in Hdoy.
    change ((9999 - 1) * 365 + (9999 - 1) / 4 - (9999 - 1) / 100 + (9999 - 1) / 400)
      with 3651694. lia.
  - assert (0 <= (if is_leap y then 1 else 0) <= 1) by (destruct (is_leap y); lia).
    Z.to_euclidean_division_equations. lia.
Qed.

Lemma two_digits_all :
  forallb (fun k => reads_back (two_digits (Z.of_nat k)) (Z.of_nat k))
          (seq 0 100) = true.
Proof. vm_compute. reflexivity. Qed.

Lemma year_text_all :
  forallb (fun k => reads_back (substring 0 4 (text_of_int (Z.of_nat k)))
                               (Z.of_nat k))
          (seq 1 (Z.to_nat 9999)) = true.
Proof. vm_compute. reflexivity. Qed.

Lemma reads_back_ok (s : string) (n : Z) :
  reads_back s n = true -> read_field s = Ok n.
Proof.
  unfold reads_back. destruct (read_field s) as [v|e]; [|discriminate].
  intros H. apply Z.eqb_eq in H. now subst.
Qed.

Lemma read_two_digits (n : Z) :
  0 <= n <= 99 -> read_field (two_digits n) = Ok n.
Proof.
  intros Hn. apply reads_back_ok.
  assert (Hk : In (Z.to_nat n) (seq 0 100)) by (apply in_seq; lia).
  pose proof (proj1 (forallb_forall _ _) two_digits_all _ Hk) as H.
  cbv beta in H. now rewrite Z2Nat.id in H by lia.
Qed.

Lemma read_year_text (y : Z) :
  1 <= y <= 9999 -> read_field (substring 0 4 (text_of_int y)) = Ok y.
Proof.
  intros Hy. apply reads_back_ok.
  assert (Hk : In (Z.to_nat y) (seq 1 (Z.to_nat 9999))) by (apply in_seq; lia).
  pose proof (proj1 (forallb_forall _ _) year_text_all _ Hk) as H.
  cbv beta in H. now rewrite Z2Nat.id in H by lia.
Qed.

(** The text round trip: for a stored month and day and a year of at most
    four digits, [to_date] of the concatenation is the range check on the
    triple. *)
Lemma to_date_concat (b : date) (y : Z) :
  0 <= month b <= 99 -> 0 <= day b <= 99 -> 1 <= y <= 9999 ->
  to_date_DDMMYYYY (concat (to_char_DDMM b) y) =
  if valid_ymd y (month b) (day b) then Ok (mkDate y (month b) (day b))
  else Err DatetimeFieldOverflow.
Proof.
  intros Hm Hd Hy. unfold to_date_DDMMYYYY, concat, to_char_DDMM.
  set (t := text_of_int y).
  assert (E1 : substring 0 2 ((two_digits (day b) ++ two_digits (month b)) ++ t)%string
               = two_digits (day b)) by reflexivity.
  assert (E2 : substring 2 2 ((two_digits (day b) ++ two_digits (month b)) ++ t)%string
               = two_digits (month b)).
  { unfold two_digits. cbn [append substring]. now destruct t. }
  assert (E3 : substring 4 4 ((two_digits (day b) ++ two_digits (month b)) ++ t)%string
               = substring 0 4 t) by reflexivity.
  rewrite E1, E2, E3. unfold t.
  rewrite !read_two_digits, read_year_text by assumption.
  reflexivity.
Qed.

End PgFacts.

(** ** Facts about the session primitives *)

Module DbFacts.
Import Models Db.

Lemma select_where_total (p : Contact -> result bool) (q : Contact -> bool)
  (rows : list Contact) :
  (forall c, In c rows -> p c = Ok (q c)) ->
  select_where p rows = Ok (filter q rows).
Proof.
  induction rows as [|r rest IH]; intros Hp; [reflexivity|].
  cbn [select_where filter]. rewrite (Hp r (or_introl eq_refl)).
  cbn [bind]. rewrite IH by (intros c Hc; apply Hp; now right).
  reflexivity.
Qed.

Lemma select_where_fails (p : Contact -> result bool) (e : error)
  (rows : list Contact) (c : Contact) :
  In c rows -> p c = Err e ->
  (forall r, In r rows -> p r = Err e \/ exists b, p r = Ok b) ->
  select_where p rows = Err e.
Proof.
  induction rows as [|r rest IH]; intros Hin Hc Hall; [contradiction|].
  cbn [select_where].
  destruct (Hall r (or_introl eq_refl)) as [Hr|[b Hr]]; rewrite Hr; cbn [bind].
  - reflexivity.
  - destruct Hin as [->|Hin]; [congruence|].
    rewrite IH; auto. intros r' Hr'. apply Hall. now right.
Qed.

(** Every row a statement returns is a row of the table on which the
    condition evaluated to true. *)
Lemma select_where_sound (p : Contact -> result bool) (rows l : list Contact) :
  select_where p rows = Ok l ->
  forall c, In c l -> In c rows /\ p c = Ok true.
Proof.
  revert l. induction rows as [|r rest IH]; intros l H c Hc.
  - cbn in H. injection H as <-. contradiction.
  - cbn [select_where] in H.
    destruct (p r) as [keep|e] eqn:Hr; cbn [bind] in H; [|discriminate].
    destruct (select_where p rest) as [tl|e] eqn:Hrest; cbn [bind] in H;
      [|discriminate].
    injection H as <-. specialize (IH tl eq_refl).
    destruct keep.
    + destruct Hc as [<-|Hc]; [split; [now left|assumption]|].
      destruct (IH c Hc). split; [now right|assumption].
    + destruct (IH c Hc). split; [now right|assumption].
Qed.

Lemma filter_none (p : Contact -> bool) (rows : list Contact) :
  (forall r, In r rows -> p r = false) -> filter p rows = [].
Proof.
  induction rows as [|r rest IH]; intros H; [reflexivity|].
  cbn [filter]. rewrite (H r (or_introl eq_refl)). apply IH.
  intros r0 H0. apply H. now right.
Qed.

Lemma filter_primary_key (p : Contact -> bool) (rows : list Contact) (c : Contact) :
  NoDup (map id rows) -> In c rows -> p c = true ->
  (forall r, In r rows -> p r = true -> id r = id c) ->
  filter p rows = [c].
Proof.
  induction rows as [|r rest IH]; intros Hnd Hin Hc Hkey; [contradiction|].
  cbn [map] in Hnd. apply NoDup_cons_iff in Hnd. destruct Hnd as [Hfresh Hnd].
  cbn [filter]. destruct Hin as [->|Hin].
  - rewrite Hc. f_equal. apply filter_none. intros r0 H0.
    destruct (p r0) eqn:Hr0; [|reflexivity].
    exfalso. apply Hfresh.
    rewrite <- (Hkey r0 (or_intror H0) Hr0). now apply in_map.
  - destruct (p r) eqn:Hr.
    + exfalso. apply Hfresh. rewrite (Hkey r (or_introl eq_refl) Hr).
      now apply in_map.
    + apply IH; auto. intros r0 H0. apply Hkey. now right.
Qed.

Lemma same_id_same_row (rows : list Contact) (a b : Contact) :
  NoDup (map id rows) -> In a rows -> In b rows -> id a = id b -> a = b.
Proof.
  induction rows as [|r rest IH]; intros Hnd Ha Hb E; [contradiction|].
  cbn [map] in Hnd. apply NoDup_cons_iff in Hnd. destruct Hnd as [Hfresh Hnd].
  destruct Ha as [->|Ha], Hb as [->|Hb]; auto.
  - exfalso. apply Hfresh. rewrite E. now apply in_map.
  - exfalso. apply Hfresh. rewrite <- E. now apply in_map.
Qed.

Lemma in_flush_delete (c r : Contact) (rows : list Contact) :
  In r (flush_delete c rows) <-> In r rows /\ id r <> id c.
Proof.
  unfold flush_delete. rewrite filter_In, negb_true_iff, Z.eqb_neq. reflexivity.
Qed.

(** After the flush the table holds the rows with another id, and the new
    version. *)
Lemma in_flush_update (c r : Contact) (rows : list Contact) :
  In r (flush_update c rows) <-> (In r rows /\ id r <> id c) \/ r = c.
Proof.
  unfold flush_update. rewrite in_app_iff, in_flush_delete. cbn [In].
  intuition congruence.
Qed.

Lemma find_flush_update (c : Contact) (rows : list Contact) :
  find (fun r => id r =? id c) (flush_update c rows) = Some c.
Proof.
  unfold flush_update, flush_delete.
  induction rows as [|r rest IH]; cbn [filter app find].
  - now rewrite Z.eqb_refl.
  - destruct (Z.eqb_spec (id r) (id c)) as [E|N]; cbn [negb]; [exact IH|].
    cbn [app find]. apply Z.eqb_neq in N. now rewrite N.
Qed.

Lemma NoDup_map_filter (p : Contact -> bool) (rows : list Contact) :
  NoDup (map id rows) -> NoDup (map id (filter p rows)).
Proof.
  induction rows as [|r rest IH]; intros Hnd; [constructor|].
  cbn [map] in Hnd. apply NoDup_cons_iff in Hnd. destruct Hnd as [Hfresh Hnd].
  cbn [filter]. destruct (p r); [|auto].
  cbn [map]. constructor; [|auto].
  intros H. apply Hfresh. apply in_map_iff in H. destruct H as [x [Hx Hin]].
  apply filter_In in Hin. apply in_map_iff. exists x. tauto.
Qed.

Lemma NoDup_flush_update (c : Contact) (rows : list Contact) :
  NoDup (map id rows) -> NoDup (map id (flush_update c rows)).
Proof.
  intros Hnd. unfold flush_update. rewrite map_app. cbn [map].
  apply NoDup_app.
  - now apply NoDup_map_filter.
  - constructor; [intros []|constructor].
  - intros x Hx [<-|[]]. apply in_map_iff in Hx. destruct Hx as [r [Hr Hin]].
    apply in_flush_delete in Hin. tauto.
Qed.

(** On a table with a primary key, the rows other than [c] in their order,
    then [c], are a rearrangement of the table. *)
Lemma flush_delete_permutation (c : Contact) (rows : list Contact) :
  NoDup (map id rows) -> In c rows ->
  Permutation (flush_delete c rows ++ [c]) rows.
Proof.
  induction rows as [|r rest IH]; intros Hnd Hin; [contradiction|].
  cbn [map] in Hnd. apply NoDup_cons_iff in Hnd. destruct Hnd as [Hfresh Hnd].
  unfold flush_delete in *. cbn [filter]. destruct Hin as [->|Hin].
  - rewrite Z.eqb_refl. cbn [negb].
    replace (filter (fun r => negb (id r =? id c)) rest) with rest.
    + apply Permutation_sym, Permutation_cons_append.
    + symmetry. apply forallb_filter_id. apply forallb_forall. intros x Hx.
      apply negb_true_iff, Z.eqb_neq. intros E. apply Hfresh.
      rewrite <- E. now apply in_map.
  - destruct (Z.eqb_spec (id r) (id c)) as [E|N].
    + exfalso. apply Hfresh. rewrite E. now apply in_map.
    + cbn [negb app]. constructor. now apply IH.
Qed.

End DbFacts.

(** ** The mutations: update and delete *)

Module MutationFacts.
Import Models Db Repository Spec DbFacts.

Lemma by_id_and_user_true (contact_id : Z) (user : User) (c : Contact) :
  by_id_and_user contact_id user c = true <->
  id c = contact_id /\ user_id c = uid user.
Proof.
  unfold by_id_and_user, owned_by.
  now rewrite andb_true_iff, !Z.eqb_eq.
Qed.

(** The id of a row is a value of the [integer] column. *)
Lemma id_int4 (c : Contact) : int4 (id c) = true.
Proof. apply int_ok. Qed.

(** An id the [integer] column can hold is bound as it is. *)
Lemma bind_int4_ok (z : Z) : int4 z = true -> bind_int4 z = Ok z.
Proof. unfold bind_int4. now intros ->. Qed.

Lemma bind_int4_sound (z z' : Z) :
  bind_int4 z = Ok z' -> z' = z /\ int4 z = true.
Proof.
  unfold bind_int4. destruct (int4 z); [|discriminate].
  intros H. injection H as <-. now split.
Qed.

Lemma bind_int4_fails (z : Z) : int4 z = false -> bind_int4 z = Err DataError.
Proof. unfold bind_int4. now intros ->. Qed.

(** The sequence hands out its next value while the column can hold it. *)
Lemma nextval_ok (db : AsyncSession) :
  int4 (next_id db) = true ->
  exists i, nextval db = Ok i /\ int_val i = next_id db.
Proof.
  intros H. unfold nextval. destruct (int4_dec (next_id db)) as [H'|H'].
  - eexists. split; reflexivity.
  - congruence.
Qed.

Lemma nextval_sound (db : AsyncSession) (i : Integer) :
  nextval db = Ok i -> int_val i = next_id db.
Proof.
  unfold nextval. destruct (int4_dec (next_id db)) as [H'|H']; [|discriminate].
  intros H. now injection H as <-.
Qed.

Lemma nextval_fails (db : AsyncSession) :
  int4 (next_id db) = false -> nextval db = Err DataError.
Proof.
  intros H. unfold nextval. destruct (int4_dec (next_id db)) as [H'|H'].
  - congruence.
  - reflexivity.
Qed.

(** The lookup by (id, owner) on a table with a primary key. *)
Lemma lookup_found (db : AsyncSession) (user : User) (c : Contact) :
  NoDup (map id (table db)) -> In c (table db) -> user_id c = uid user ->
  scalar_one_or_none (filter (by_id_and_user (id c) user) (table db))
  = Ok (Some c).
Proof.
  intros Hnd Hin Hown.
  rewrite (filter_primary_key _ _ c Hnd Hin).
  - reflexivity.
  - now apply by_id_and_user_true.
  - intros r _ Hr. now apply by_id_and_user_true in Hr.
Qed.

Lemma lookup_absent (db : AsyncSession) (user : User) (contact_id : Z) :
  (forall c, In c (table db) -> ~ (id c = contact_id /\ user_id c = uid user)) ->
  scalar_one_or_none (filter (by_id_and_user contact_id user) (table db))
  = Ok None.
Proof.
  intros Habs. rewrite filter_none; [reflexivity|].
  intros r Hr. destruct (by_id_and_user contact_id user r) eqn:E; [|reflexivity].
  apply by_id_and_user_true in E. now destruct (Habs r Hr).
Qed.

(** What a lookup that answers found. *)
Lemma lookup_sound (db : AsyncSession) (user : User) (contact_id : Z)
  (o : option Contact) :
  scalar_one_or_none (filter (by_id_and_user contact_id user) (table db)) = Ok o ->
  match o with
  | Some c => In c (table db) /\ id c = contact_id /\ user_id c = uid user
  | None => forall c, In c (table db) ->
                      ~ (id c = contact_id /\ user_id c = uid user)
  end.
Proof.
  intros H.
  destruct (filter (by_id_and_user contact_id user) (table db))
    as [|r [|r' rest]] eqn:E; cbn in H; try discriminate; injection H as <-.
  - intros c Hc Hk. apply by_id_and_user_true in Hk.
    assert (Hin : In c (filter (by_id_and_user contact_id user) (table db)))
      by (apply filter_In; auto).
    rewrite E in Hin. contradiction.
  - assert (Hin : In r (filter (by_id_and_user contact_id user) (table db)))
      by (rewrite E; now left).
    apply filter_In in Hin. destruct Hin as [Hin Hk].
    apply by_id_and_user_true in Hk. tauto.
Qed.

End MutationFacts.

Module UpdateDelete.
Import Models Db Repository Spec DbFacts MutationFacts.

(** The row written by an update: id and owner of the stored contact, the
    six attributes of the payload. *)
Lemma update_contact_found (db : AsyncSession) (user : User) (c : Contact)
  (body : Schemas.ContactSchema) :
  NoDup (map id (table db)) -> In c (table db) -> user_id c = uid user ->
  let c' :=
    mkContact (pk c) (Schemas.name body) (Schemas.surname body)
      (Schemas.email body) (Schemas.phone_number body)
      (Schemas.birthday body) (Schemas.description body) (user_id c) in
  update_contact (id c) body db user
  = Ok (Some c',
        mkSession (flush_update c' (table db)) (next_id db) (S (commits db))).
Proof.
  intros Hnd Hin Hown c'. unfold update_contact.
  rewrite (bind_int4_ok _ (id_int4 c)). cbn [bind].
  rewrite (lookup_found db user c Hnd Hin Hown). cbn [bind].
  fold c'. unfold refresh, commit. cbn [table].
  now rewrite find_flush_update.
Qed.

(** C5. For a contact the caller owns, update overwrites name, surname,
    email, phone_number, birthday and description with the payload's values,
    whatever they were and whatever the payload holds (an absent description
    clears the stored one); id and owner stay, every other row stays, and
    the contact read back is the payload. *)
Theorem update_contact_full_replace (db : AsyncSession) (user : User)
  (c : Contact) (body : Schemas.ContactSchema) :
  NoDup (map id (table db)) -> In c (table db) -> user_id c = uid user ->
  exists c' db',
    update_contact (id c) body db user = Ok (Some c', db') /\
    id c' = id c /\ user_id c' = user_id c /\
    name c' = Schemas.name body /\
    surname c' = Schemas.surname body /\
    email c' = Schemas.email body /\
    phone_number c' = Schemas.phone_number body /\
    birthday c' = Schemas.birthday body /\
    description c' = Schemas.description body /\
    get_contact (id c) db' user = Ok (Some c') /\
    (forall r, id r <> id c -> (In r (table db') <-> In r (table db))) /\
    (forall r, In r (table db') -> id r = id c -> r = c') /\
    commits db' = S (commits db).
Proof.
  intros Hnd Hin Hown. pose proof (id_int4 c) as Hid.
  pose proof (update_contact_found db user c body Hnd Hin Hown) as Hup.
  cbv zeta in Hup.
  set (c' := mkContact (pk c) (Schemas.name body) (Schemas.surname body)
               (Schemas.email body) (Schemas.phone_number body)
               (Schemas.birthday body) (Schemas.description body) (user_id c))
    in *.
  set (db' := mkSession (flush_update c' (table db)) (next_id db)
                (S (commits db))) in *.
  exists c', db'. split; [exact Hup|].
  repeat (split; [reflexivity|]).
  split; [|split; [|split; [|reflexivity]]].
  - unfold get_contact. rewrite (bind_int4_ok _ Hid). cbn [bind].
    change (id c) with (id c').
    apply lookup_found; [| |exact Hown]; cbn [db' table].
    + now apply NoDup_flush_update.
    + apply in_flush_update. now right.
  - intros r Hr. cbn [db' table]. rewrite in_flush_update.
    change (id c') with (id c). split; [|tauto].
    intros [[H _]|H]; [assumption|]. subst r. now cbn in Hr.
  - intros r Hrin Hrid. cbn [db' table] in Hrin.
    apply in_flush_update in Hrin. change (id c') with (id c) in Hrin.
    destruct Hrin as [[_ H]|H]; [contradiction|assumption].
Qed.

(** C6. When the given id is one the 32-bit id column can hold and no
    contact has it with the caller as owner, update answers not found and
    hands the session back as it was: same rows, same sequence, no commit. *)
Theorem update_contact_absent (db : AsyncSession) (user : User)
  (contact_id : Z) (body : Schemas.ContactSchema) :
  int4 contact_id = true ->
  (forall c, In c (table db) -> ~ (id c = contact_id /\ user_id c = uid user)) ->
  update_contact contact_id body db user = Ok (None, db).
Proof.
  intros Hid Habs. unfold update_contact.
  rewrite (bind_int4_ok _ Hid). cbn [bind].
  now rewrite (lookup_absent db user contact_id Habs).
Qed.

(** An id outside the column's range is refused before any row is read. *)
Lemma update_contact_out_of_range (db : AsyncSession) (user : User)
  (contact_id : Z) (body : Schemas.ContactSchema) :
  int4 contact_id = false ->
  update_contact contact_id body db user = Err DataError /\
  delete_contact contact_id db user = Err DataError /\
  get_contact contact_id db user = Err DataError.
Proof.
  intros Hid. unfold update_contact, delete_contact, get_contact.
  now rewrite (bind_int4_fails _ Hid).
Qed.

(** Delete of a contact the caller owns: the record comes back and its row
    is gone, the others stay. *)
Lemma delete_contact_found (db : AsyncSession) (user : User) (c : Contact) :
  NoDup (map id (table db)) -> In c (table db) -> user_id c = uid user ->
  exists db',
    delete_contact (id c) db user = Ok (Some c, db') /\
    table db' = flush_delete c (table db) /\
    ~ In c (table db') /\
    get_contact (id c) db' user = Ok None /\
    (forall r, id r <> id c -> (In r (table db') <-> In r (table db))) /\
    commits db' = S (commits db).
Proof.
  intros Hnd Hin Hown. pose proof (id_int4 c) as Hid. unfold delete_contact.
  rewrite (bind_int4_ok _ Hid). cbn [bind].
  rewrite (lookup_found db user c Hnd Hin Hown). cbn [bind].
  eexists. split; [reflexivity|]. unfold commit. cbn [table commits].
  split; [reflexivity|]. split; [|split; [|split; [|reflexivity]]].
  - rewrite in_flush_delete. tauto.
  - unfold get_contact. rewrite (bind_int4_ok _ Hid). cbn [bind].
    apply lookup_absent. cbn [table].
    intros r Hr [Hrid _]. apply in_flush_delete in Hr. tauto.
  - intros r Hr. rewrite in_flush_delete. tauto.
Qed.

(** Delete of an id the caller does not own: not found, nothing touched. *)
Lemma delete_contact_absent (db : AsyncSession) (user : User) (contact_id : Z) :
  int4 contact_id = true ->
  (forall c, In c (table db) -> ~ (id c = contact_id /\ user_id c = uid user)) ->
  delete_contact contact_id db user = Ok (None, db).
Proof.
  intros Hid Habs. unfold delete_contact.
  rewrite (bind_int4_ok _ Hid). cbn [bind].
  now rewrite (lookup_absent db user contact_id Habs).
Qed.

(** What a lookup by id that returned says about its argument. *)
Lemma get_contact_inv (contact_id : Z) (db : AsyncSession) (user : User)
  (o : option Contact) :
  get_contact contact_id db user = Ok o ->
  int4 contact_id = true /\
  scalar_one_or_none (filter (by_id_and_user contact_id user) (table db))
  = Ok o.
Proof.
  unfold get_contact, bind_int4. destruct (int4 contact_id); [|discriminate].
  cbn [bind]. now split.
Qed.

(** The two ways an update returns. *)
Lemma update_contact_inv (contact_id : Z) (body : Schemas.ContactSchema)
  (db db' : AsyncSession) (user : User) (o : option Contact) :
  update_contact contact_id body db user = Ok (o, db') ->
  int4 contact_id = true /\
  ((o = None /\ db' = db) \/
   exists c,
     In c (table db) /\ id c = contact_id /\ user_id c = uid user /\
     let c' :=
       mkContact (pk c) (Schemas.name body) (Schemas.surname body)
         (Schemas.email body) (Schemas.phone_number body)
         (Schemas.birthday body) (Schemas.description body) (user_id c) in
     o = Some c' /\
     db' = mkSession (flush_update c' (table db)) (next_id db)
             (S (commits db))).
Proof.
  unfold update_contact, bind_int4. destruct (int4 contact_id); [|discriminate].
  cbn [bind]. intros H. split; [reflexivity|].
  destruct (scalar_one_or_none
              (filter (by_id_and_user contact_id user) (table db)))
    as [[c|]|e] eqn:Hl; cbn [bind] in H; [| |discriminate].
  - right. exists c.
    pose proof (lookup_sound db user contact_id (Some c) Hl) as [Hin [Hid Hown]].
    repeat (split; [assumption|]). cbv zeta.
    unfold refresh, commit in H. cbn [table] in H.
    rewrite find_flush_update in H. cbn [bind] in H.
    injection H as <- <-. now split.
  - left. injection H as <- <-. now split.
Qed.

(** The two ways a delete returns. *)
Lemma delete_contact_inv (contact_id : Z) (db db' : AsyncSession)
  (user : User) (o : option Contact) :
  delete_contact contact_id db user = Ok (o, db') ->
  int4 contact_id = true /\
  ((o = None /\ db' = db) \/
   exists c,
     In c (table db) /\ id c = contact_id /\ user_id c = uid user /\
     o = Some c /\
     db' = mkSession (flush_delete c (table db)) (next_id db)
             (S (commits db))).
Proof.
  unfold delete_contact, bind_int4. destruct (int4 contact_id); [|discriminate].
  cbn [bind]. intros H. split; [reflexivity|].
  destruct (scalar_one_or_none
              (filter (by_id_and_user contact_id user) (table db)))
    as [[c|]|e] eqn:Hl; cbn [bind] in H; [| |discriminate].
  - right. exists c.
    pose proof (lookup_sound db user contact_id (Some c) Hl) as [Hin [Hid Hown]].
    repeat (split; [assumption|]). unfold commit in H.
    injection H as <- <-. now split.
  - left. injection H as <- <-. now split.
Qed.

End UpdateDelete.

(** ** The queries: paging, lookup by field, owner scoping *)

Module QueryFacts.
Import Models Db Repository Spec DbFacts MutationFacts Samples.

Lemma disjoint_pages (p1 p2 : list Contact) :
  NoDup (map id (p1 ++ p2)) -> forall c, In c p1 -> ~ In c p2.
Proof.
  induction p1 as [|r rest IH]; intros Hnd c Hc1 Hc2; [contradiction|].
  cbn [app map] in Hnd. apply NoDup_cons_iff in Hnd. destruct Hnd as [Hfresh Hnd].
  destruct Hc1 as [->|Hc1]; [|now apply (IH Hnd c)].
  apply Hfresh. apply in_map. apply in_or_app. now right.
Qed.

Lemma bind_int8_ok (z : Z) : INT8_MIN <= z <= INT8_MAX -> bind_int8 z = Ok z.
Proof.
  intros H. unfold bind_int8, int8.
  replace (INT8_MIN <=? z) with true by (symmetry; apply Z.leb_le; lia).
  replace (z <=? INT8_MAX) with true by (symmetry; apply Z.leb_le; lia).
  reflexivity.
Qed.

Lemma bind_int8_above (z : Z) : INT8_MAX < z -> bind_int8 z = Err DataError.
Proof.
  intros H. unfold bind_int8, int8.
  replace (z <=? INT8_MAX) with false by (symmetry; apply Z.leb_gt; lia).
  now rewrite andb_false_r.
Qed.

Lemma get_contacts_page (limit offset : Z) (db : AsyncSession) (user : User) :
  0 <= limit <= INT8_MAX -> 0 <= offset <= INT8_MAX ->
  get_contacts limit offset db user
  = Ok (firstn (Z.to_nat limit)
          (skipn (Z.to_nat offset) (filter (owned_by user) (table db)))).
Proof.
  intros Hl Ho. unfold get_contacts, offset_limit, scalars_all.
  rewrite !bind_int8_ok by (unfold INT8_MIN; lia). cbn [bind].
  replace (offset <? 0) with false by (symmetry; apply Z.ltb_ge; lia).
  replace (limit <? 0) with false by (symmetry; apply Z.ltb_ge; lia).
  reflexivity.
Qed.

(** A count the [bigint] parameter cannot hold is refused: no page. *)
Lemma get_contacts_out_of_range (limit offset : Z) (db : AsyncSession)
  (user : User) :
  INT8_MIN <= limit -> INT8_MAX < offset ->
  get_contacts limit offset db user = Err DataError.
Proof.
  intros Hl Ho. unfold get_contacts, offset_limit.
  now rewrite (bind_int8_above _ Ho).
Qed.

Lemma in_page_owned (n k : nat) (db : AsyncSession) (user : User) (c : Contact) :
  In c (firstn n (skipn k (filter (owned_by user) (table db)))) ->
  In c (table db) /\ user_id c = uid user.
Proof.
  intros H.
  assert (H1 : In c (skipn k (filter (owned_by user) (table db)))).
  { rewrite <- (firstn_skipn n (skipn k _)). apply in_or_app. now left. }
  assert (H2 : In c (filter (owned_by user) (table db))).
  { rewrite <- (firstn_skipn k (filter _ _)). apply in_or_app. now right. }
  clear H H1. rename H2 into H. apply filter_In in H.
  destruct H as [Hin Hown]. split; [assumption|]. now apply Z.eqb_eq in Hown.
Qed.

(** C8. With limit and offset that are counts a 64-bit parameter can hold,
    a page is the first [limit] of the caller's rows after the first
    [offset] of them, in table order; over fifteen owned contacts the pages
    (10, 0) and (10, 10) have ten and five rows, laid end to end they are
    the fifteen rows in order, and under the primary key no contact is on
    both. *)
Theorem get_contacts_pagination (db : AsyncSession) (user : User) :
  (forall limit offset, 0 <= limit <= INT8_MAX -> 0 <= offset <= INT8_MAX ->
     exists page,
       get_contacts limit offset db user = Ok page /\
       page = firstn (Z.to_nat limit)
                (skipn (Z.to_nat offset) (filter (owned_by user) (table db))) /\
       Z.of_nat (List.length page) <= limit /\
       forall c, In c page -> In c (table db) /\ user_id c = uid user) /\
  (List.length (filter (owned_by user) (table db)) = 15%nat ->
     exists p1 p2,
       get_contacts 10 0 db user = Ok p1 /\
       get_contacts 10 10 db user = Ok p2 /\
       List.length p1 = 10%nat /\ List.length p2 = 5%nat /\
       p1 ++ p2 = filter (owned_by user) (table db) /\
       (NoDup (map id (table db)) -> forall c, In c p1 -> ~ In c p2)).
Proof.
  split.
  - intros limit offset Hl Ho. eexists. split; [now apply get_contacts_page|].
    split; [reflexivity|]. split.
    + rewrite length_firstn. lia.
    + intros c. apply in_page_owned.
  - intros H15. set (owned := filter (owned_by user) (table db)) in *.
    exists (firstn 10 owned), (skipn 10 owned).
    assert (E2 : firstn 10 (skipn 10 owned) = skipn 10 owned).
    { apply firstn_all2. rewrite length_skipn. lia. }
    split; [now rewrite get_contacts_page by (unfold INT8_MAX; lia)|].
    split; [rewrite get_contacts_page by (unfold INT8_MAX; lia); fold owned;
            change (Z.to_nat 10) with 10%nat; now rewrite E2|].
    split; [rewrite length_firstn; lia|].
    split; [rewrite length_skipn; lia|].
    split; [apply firstn_skipn|].
    intros Hnd. apply disjoint_pages. rewrite firstn_skipn.
    now apply NoDup_map_filter.
Qed.

(** C3. When at least one filter is supplied, the statement that runs tests
    the field of the first supplied filter in the order name, surname,
    email, for equality with that filter's value, and the rows returned are
    the columns of exactly the table rows that pass, in table order; the
    filters after the selected one play no part. *)
Theorem get_contacts_by_params_precedence (name surname email : option string)
  (db : AsyncSession) (user : User) :
  name <> None \/ surname <> None \/ email <> None ->
  resolve name surname email <> Absent /\
  exists (test : Contact -> bool) (rows : list Row),
    (forall c, test c = true <-> matches (resolve name surname email) c) /\
    get_contacts_by_params name surname email db user = Ok rows /\
    rows = map columns (filter test (table db)) /\
    forall r, In r rows <->
              exists c, In c (table db) /\ columns c = r /\
                        matches (resolve name surname email) c.
Proof.
  intros Hsome.
  assert (Hgen : forall test : Contact -> bool,
             (forall c, test c = true <-> matches (resolve name surname email) c) ->
             forall r, In r (map columns (filter test (table db))) <->
                       exists c, In c (table db) /\ columns c = r /\
                                 matches (resolve name surname email) c).
  { intros test Ht r. rewrite in_map_iff. split.
    - intros [c [Hc Hin]]. apply filter_In in Hin. destruct Hin as [Hin Hp].
      exists c. rewrite <- Ht. tauto.
    - intros [c [Hin [Hc Hm]]]. exists c. rewrite filter_In, Ht. tauto. }
  destruct name as [n|]; [|destruct surname as [s|]; [|destruct email as [e|]]].
  - split; [discriminate|].
    exists (fun c => String.eqb (Models.name c) n). eexists.
    assert (Ht : forall c, String.eqb (Models.name c) n = true <->
                           matches (resolve (Some n) surname email) c)
      by (intros c; apply String.eqb_eq).
    split; [exact Ht|]. split; [reflexivity|]. split; [reflexivity|].
    apply (Hgen _ Ht).
  - split; [discriminate|].
    exists (fun c => String.eqb (Models.surname c) s). eexists.
    assert (Ht : forall c, String.eqb (Models.surname c) s = true <->
                           matches (resolve None (Some s) email) c)
      by (intros c; apply String.eqb_eq).
    split; [exact Ht|]. split; [reflexivity|]. split; [reflexivity|].
    apply (Hgen _ Ht).
  - split; [discriminate|].
    exists (fun c => String.eqb (Models.email c) e). eexists.
    assert (Ht : forall c, String.eqb (Models.email c) e = true <->
                           matches (resolve None None (Some e)) c)
      by (intros c; apply String.eqb_eq).
    split; [exact Ht|]. split; [reflexivity|]. split; [reflexivity|].
    apply (Hgen _ Ht).
  - exfalso. destruct Hsome as [H|[H|H]]; now apply H.
Qed.

(** C4. With the three filters absent no branch assigns the statement, and
    the call raises where it reads it: no list comes back, neither the
    caller's contacts nor an empty one. *)
Theorem get_contacts_by_params_all_absent (db : AsyncSession) (user : User) :
  get_contacts_by_params None None None db user = Err UnboundLocalError /\
  ~ exists rows, get_contacts_by_params None None None db user = Ok rows.
Proof.
  split; [reflexivity|]. intros [rows H]. discriminate H.
Qed.

(** The caller takes no part in the lookup by field. *)
Lemma get_contacts_by_params_any_caller (name surname email : option string)
  (db : AsyncSession) (user user' : User) :
  get_contacts_by_params name surname email db user
  = get_contacts_by_params name surname email db user'.
Proof. reflexivity. Qed.

(** C1. Bob asks for the contacts named Ann and is given, besides his own,
    the row of a contact that Alice owns. *)
Theorem get_contacts_by_params_crosses_owners :
  get_contacts_by_params (Some "Ann"%string) None None db_two_owners bob
  = Ok [columns ann; columns ann_of_bob] /\
  In ann (table db_two_owners) /\
  user_id ann = uid alice /\ uid alice <> uid bob.
Proof.
  split; [reflexivity|]. split; [now left|]. split; [reflexivity|discriminate].
Qed.

(** The lookup by id answers only with a row of the caller. *)
Lemma get_contact_owner_scoped (contact_id : Z) (db : AsyncSession)
  (user : User) (c : Contact) :
  get_contact contact_id db user = Ok (Some c) ->
  In c (table db) /\ id c = contact_id /\ user_id c = uid user.
Proof.
  intros H. apply UpdateDelete.get_contact_inv in H. destruct H as [_ H].
  exact (lookup_sound db user contact_id (Some c) H).
Qed.

(** A contact of another owner is not found. *)
Lemma get_contact_other_owner (db : AsyncSession) (a b : User) (c : Contact) :
  NoDup (map id (table db)) -> In c (table db) -> user_id c = uid a ->
  uid a <> uid b ->
  get_contact (id c) db b = Ok None.
Proof.
  intros Hnd Hin Hown Hab. pose proof (id_int4 c) as Hi4. unfold get_contact.
  rewrite (bind_int4_ok _ Hi4). cbn [bind]. apply lookup_absent.
  intros r Hr [Hid Hu].
  rewrite (same_id_same_row (table db) r c Hnd Hr Hin Hid) in Hu. congruence.
Qed.

(** The birthday query lists only rows of the caller. *)
Lemma get_birthday_contacts_owner_scoped (days : Z) (db : AsyncSession)
  (user : User) (today : Calendar.date) (l : list Contact) :
  get_birthday_contacts days db user today = Ok l ->
  forall c, In c l -> In c (table db) /\ user_id c = uid user.
Proof.
  unfold get_birthday_contacts.
  destruct (Calendar.timedelta days) as [delta|e]; cbn [bind]; [|discriminate].
  destruct (Calendar.date_add today delta) as [dateTo|e]; cbn [bind];
    [|discriminate].
  destruct (select_where _ (table db)) as [rows|e] eqn:Hs; cbn [bind];
    [|discriminate].
  intros E c Hc. injection E as <-. unfold scalars_all in Hc.
  destruct (select_where_sound _ _ _ Hs c Hc) as [Hin Hp].
  split; [assumption|].
  destruct (owned_by user c) eqn:Hown; [|discriminate].
  now apply Z.eqb_eq in Hown.
Qed.

(** An update, found or not, leaves the rows of every other owner as they
    were. *)
Lemma update_contact_other_owners (contact_id : Z)
  (body : Schemas.ContactSchema) (db db' : AsyncSession) (user : User)
  (o : option Contact) :
  NoDup (map id (table db)) ->
  update_contact contact_id body db user = Ok (o, db') ->
  forall x, user_id x <> uid user -> (In x (table db') <-> In x (table db)).
Proof.
  intros Hnd Hup x Hx.
  apply UpdateDelete.update_contact_inv in Hup.
  destruct Hup as [_ [[_ ->]|[c [Hin [Hid [Hown Hres]]]]]]; [tauto|].
  cbv zeta in Hres. destruct Hres as [_ ->]. cbn [table].
  rewrite in_flush_update. cbn [id]. split.
  - intros [[H _]|H]; [assumption|]. subst x. cbn in Hx. congruence.
  - intros Hxin. left. split; [assumption|]. intros E.
    rewrite (same_id_same_row (table db) x c Hnd Hxin Hin E) in Hx.
    congruence.
Qed.

(** So does a delete. *)
Lemma delete_contact_other_owners (contact_id : Z) (db db' : AsyncSession)
  (user : User) (o : option Contact) :
  NoDup (map id (table db)) ->
  delete_contact contact_id db user = Ok (o, db') ->
  forall x, user_id x <> uid user -> (In x (table db') <-> In x (table db)).
Proof.
  intros Hnd Hdel x Hx.
  apply UpdateDelete.delete_contact_inv in Hdel.
  destruct Hdel as [_ [[_ ->]|[c [Hin [Hid [Hown [_ ->]]]]]]]; [tauto|].
  cbn [table]. rewrite in_flush_delete. split; [tauto|].
  intros Hxin. split; [assumption|]. intros E.
  rewrite (same_id_same_row (table db) x c Hnd Hxin Hin E) in Hx.
  congruence.
Qed.

(** Creating under one owner, then reading as another. *)
Lemma create_then_get_other_owner (db db' : AsyncSession) (a b : User)
  (body : Schemas.ContactSchema) (c : Contact) :
  well_formed db -> uid a <> uid b -> int4 (next_id db) = true ->
  create_contact body db a = Ok (c, db') ->
  well_formed db' /\ user_id c = uid a /\
  get_contact (id c) db' a = Ok (Some c) /\
  get_contact (id c) db' b = Ok None.
Proof.
  intros [Hnd Hseq] Hab Hi4. unfold create_contact.
  destruct (nextval_ok db Hi4) as [i [-> Hi]]. cbn [bind].
  set (c0 := mkContact i (Schemas.name body) (Schemas.surname body)
               (Schemas.email body) (Schemas.phone_number body)
               (Schemas.birthday body) (Schemas.description body) (uid a)).
  assert (Hc0 : id c0 = next_id db) by exact Hi.
  assert (Hfresh : ~ In (id c0) (map id (table db))).
  { intros H. apply in_map_iff in H. destruct H as [x [Hx Hin]].
    specialize (Hseq x Hin). lia. }
  assert (Hnd' : NoDup (map id (table db ++ [c0]))).
  { rewrite map_app. cbn [map]. apply NoDup_app; [assumption| |].
    - constructor; [intros []|constructor].
    - intros x Hx [<-|[]]. now apply Hfresh. }
  unfold refresh, commit. cbn [table].
  assert (Hfind : find (fun r => id r =? id c0) (table db ++ [c0]) = Some c0).
  { clear Hnd'. induction (table db) as [|r rest IH].
    - cbn. now rewrite Z.eqb_refl.
    - cbn [app find]. destruct (Z.eqb_spec (id r) (id c0)) as [E|N].
      + exfalso. apply Hfresh. left. exact E.
      + apply IH.
        * cbn [map] in Hnd. now apply NoDup_cons_iff in Hnd.
        * intros x Hx. apply Hseq. now right.
        * intros H. apply Hfresh. now right. }
  rewrite Hfind. cbn [bind]. intros H. injection H as <- <-.
  assert (Hin : In c0 (table db ++ [c0])) by (apply in_or_app; right; now left).
  split; [|split; [reflexivity|split]].
  - split; [exact Hnd'|]. cbn [table next_id]. intros x Hx.
    apply in_app_or in Hx. destruct Hx as [Hx|[<-|[]]].
    + specialize (Hseq x Hx). lia.
    + lia.
  - unfold get_contact. rewrite (bind_int4_ok _ (id_int4 c0)). cbn [bind].
    now apply lookup_found.
  - now apply get_contact_other_owner with (a := a).
Qed.

End QueryFacts.

(** ** The delete handler *)

Module RouteFacts.
Import Models Db Samples.

(** Whatever the repository answers, found or not, the handler asks it for
    [.scalars()]: the response is never 204 and never 404. *)
Lemma delete_contact_status (contact_id : Z) (db : AsyncSession) (user : User) :
  let status := Routes.status_code (fst (Routes.delete_contact contact_id db user)) in
  status = Routes.HTTP_422_UNPROCESSABLE_ENTITY \/
  status = Routes.HTTP_500_INTERNAL_SERVER_ERROR.
Proof.
  unfold Routes.delete_contact.
  destruct (1 <=? contact_id); [|now left].
  destruct (Repository.delete_contact contact_id db user) as [[[c|] db']|e];
    now right.
Qed.

(** The list handler answers 200 with a page of at most [limit] rows, or
    422, as long as the offset is one the server's parameter can hold. *)
Lemma get_contacts_status (limit offset : Z) (db : AsyncSession) (user : User) :
  offset <= INT8_MAX ->
  (10 <= limit <= 500 /\ 0 <= offset /\
   exists page,
     Routes.get_contacts limit offset db user
     = Routes.mkResponse Routes.HTTP_200_OK (Routes.Contacts page) /\
     Repository.get_contacts limit offset db user = Ok page) \/
  Routes.get_contacts limit offset db user = Routes.validation_error.
Proof.
  intros Hmax. unfold Routes.get_contacts.
  destruct ((10 <=? limit) && (limit <=? 500) && (0 <=? offset)) eqn:E;
    [left|now right].
  rewrite !andb_true_iff, !Z.leb_le in E.
  rewrite QueryFacts.get_contacts_page by (unfold INT8_MAX in *; lia).
  repeat split; try lia. eauto.
Qed.

(** An update of an id the caller does not own is answered 404 and changes
    nothing; an id past the range of the id column is answered 500. *)
Lemma update_contact_not_found (body : Schemas.ContactSchema) (contact_id : Z)
  (db : AsyncSession) (user : User) :
  (1 <= contact_id <= INT4_MAX ->
   (forall c, In c (table db) ->
              ~ (id c = contact_id /\ user_id c = uid user)) ->
   Routes.update_contact body contact_id db user
   = (Routes.mkResponse Routes.HTTP_404_NOT_FOUND
        (Routes.Detail "Contact not found"), db)) /\
  (INT4_MAX < contact_id ->
   Routes.update_contact body contact_id db user = (Routes.server_error, db)).
Proof.
  unfold Routes.update_contact, Repository.update_contact, bind_int4, int4,
    INT4_MIN, INT4_MAX.
  split.
  - intros Hid Habs.
    replace (1 <=? contact_id) with true by (symmetry; apply Z.leb_le; lia).
    replace (-2147483648 <=? contact_id) with true
      by (symmetry; apply Z.leb_le; lia).
    replace (contact_id <=? 2147483647) with true
      by (symmetry; apply Z.leb_le; lia).
    cbn [andb bind].
    now rewrite (MutationFacts.lookup_absent db user contact_id Habs).
  - intros Hid.
    replace (1 <=? contact_id) with true by (symmetry; apply Z.leb_le; lia).
    replace (contact_id <=? 2147483647) with false
      by (symmetry; apply Z.leb_gt; lia).
    now rewrite andb_false_r.
Qed.

(** C7. Alice deletes her contact 1: the repository removes the row and
    returns the record, and the handler answers 500; she deletes the id 9
    that nobody has: the repository answers not found and touches nothing,
    and the handler answers 500 again. *)
Theorem delete_contact_route_fails :
  Repository.delete_contact 1 db_two_owners alice
  = Ok (Some ann, mkSession [june; ann_of_bob] 5 1) /\
  Routes.delete_contact 1 db_two_owners alice
  = (Routes.server_error, mkSession [june; ann_of_bob] 5 1) /\
  Repository.delete_contact 9 db_two_owners alice = Ok (None, db_two_owners) /\
  Routes.delete_contact 9 db_two_owners alice
  = (Routes.server_error, db_two_owners) /\
  Routes.status_code Routes.server_error = 500.
Proof. repeat split. Qed.

End RouteFacts.

(** ** The birthday query *)

Module BirthdayFacts.
Import Calendar Pg Models Db Repository Spec CalendarFacts PgFacts DbFacts.

Lemma valid_ymd_fields (y m d : Z) :
  valid_ymd y m d = true <->
  1 <= y <= 9999 /\ 1 <= m <= 12 /\ 1 <= d <= days_in_month y m.
Proof.
  unfold valid_ymd, MINYEAR, MAXYEAR.
  rewrite !andb_true_iff, !Z.leb_le. tauto.
Qed.

Lemma days_in_month_le_31 (y m : Z) : days_in_month y m <= 31.
Proof.
  unfold days_in_month. destruct ((m =? 2) && is_leap y); [lia|].
  destruct m as [|p|p]; cbn; try lia.
  do 4 (destruct p; cbn; try lia).
Qed.

(** The candidate built through text is the range check on the triple. *)
Lemma candidate_eq (c : Contact) (y : Z) :
  valid_date (birthday c) = true -> 1 <= y <= 9999 ->
  candidate c y =
  if valid_ymd y (month (birthday c)) (day (birthday c))
  then Ok (mkDate y (month (birthday c)) (day (birthday c)))
  else Err DatetimeFieldOverflow.
Proof.
  intros Hv Hy. unfold candidate. apply valid_ymd_fields in Hv.
  pose proof (days_in_month_le_31 (year (birthday c)) (month (birthday c))).
  apply to_date_concat; lia.
Qed.

(** A birthday other than a leap day has an anniversary in every year. *)
Lemma recurs_valid (c : Contact) (y : Z) :
  recurs_yearly c = true -> 1 <= y <= 9999 ->
  valid_ymd y (month (birthday c)) (day (birthday c)) = true.
Proof.
  unfold recurs_yearly, leap_day, valid_date.
  rewrite andb_true_iff, negb_true_iff. intros [Hv Hl] Hy.
  apply valid_ymd_fields in Hv. apply valid_ymd_fields.
  destruct Hv as [_ [Hm Hd]]. split; [assumption|]. split; [assumption|].
  revert Hd Hl. unfold days_in_month.
  destruct (Z.eqb_spec (month (birthday c)) 2) as [E|N]; cbn [andb]; [|tauto].
  rewrite E. cbn [DAYS_IN_MONTH].
  destruct (Z.eqb_spec (day (birthday c)) 29); [discriminate|].
  destruct (is_leap (year (birthday c))), (is_leap y); intros; lia.
Qed.

(** A leap day has none in a common year. *)
Lemma leap_day_invalid (c : Contact) (y : Z) :
  leap_day (birthday c) = true -> is_leap y = false ->
  valid_ymd y (month (birthday c)) (day (birthday c)) = false.
Proof.
  unfold leap_day. rewrite andb_true_iff, !Z.eqb_eq. intros [-> ->] Hl.
  unfold valid_ymd, days_in_month. rewrite Hl. cbn.
  now rewrite !andb_false_r.
Qed.

Lemma date_add_ordinal (today : date) (delta : Z) :
  0 < toordinal today + delta <= MAXORDINAL ->
  exists dateTo, date_add today delta = Ok dateTo /\
                 toordinal dateTo = toordinal today + delta.
Proof.
  intros Ho. unfold date_add.
  replace (0 <? toordinal today + delta) with true
    by (symmetry; apply Z.ltb_lt; lia).
  replace (toordinal today + delta <=? MAXORDINAL) with true
    by (symmetry; apply Z.leb_le; lia).
  eexists. split; [reflexivity|]. apply toordinal_fromordinal. lia.
Qed.

Lemma date_add_sound (today dateTo : date) (delta : Z) :
  date_add today delta = Ok dateTo ->
  toordinal dateTo = toordinal today + delta.
Proof.
  unfold date_add.
  destruct (Z.ltb_spec 0 (toordinal today + delta)) as [Hpos|]; [|discriminate].
  destruct (toordinal today + delta <=? MAXORDINAL); [|discriminate].
  cbn [andb]. intros E. injection E as <-. apply toordinal_fromordinal. lia.
Qed.

Lemma timedelta_ok (days : Z) :
  - MAXORDINAL <= days <= MAXORDINAL -> timedelta days = Ok days.
Proof.
  unfold timedelta, MAXORDINAL. intros H.
  replace (Z.abs days <=? 999999999) with true
    by (symmetry; apply Z.leb_le; lia).
  reflexivity.
Qed.

Lemma timedelta_sound (days delta : Z) :
  timedelta days = Ok delta -> delta = days.
Proof.
  unfold timedelta. destruct (Z.abs days <=? 999999999); [|discriminate].
  now intros H; injection H.
Qed.

Lemma toordinal_bounds (d : date) :
  valid_date d = true -> 1 <= toordinal d <= MAXORDINAL.
Proof. apply ordinal_bounds. Qed.

Section Window.

Variables (today dateTo : date) (days : Z).
Hypothesis today_valid : valid_date today = true.
Hypothesis next_year : year today < MAXYEAR.
Hypothesis dateTo_ordinal : toordinal dateTo = toordinal today + days.

Local Abbreviation hit := (Spec.hit today dateTo).

Lemma hit_window (c : Contact) (y : Z) :
  valid_ymd y (month (birthday c)) (day (birthday c)) = true ->
  hit c y = true <-> candidate_in_window today days c y.
Proof.
  intros Hv. unfold Spec.hit, between, date_leb, candidate_in_window.
  rewrite andb_true_iff, !Z.leb_le, dateTo_ordinal.
  unfold toordinal at 2 3. cbn [year month day]. tauto.
Qed.

Lemma years_in_range :
  1 <= year today <= 9999 /\ 1 <= year today + 1 <= 9999.
Proof.
  apply valid_ymd_fields in today_valid. unfold MAXYEAR in next_year. lia.
Qed.

(** On a birthday with an anniversary every year the condition evaluates,
    to the disjunction of the two window tests. *)
Lemma birthday_in_window_recurs (c : Contact) :
  recurs_yearly c = true ->
  birthday_in_window today dateTo (year today) (year today + 1) c
  = Ok (hit c (year today) || hit c (year today + 1)).
Proof.
  intros Hr. destruct years_in_range as [H1 H2].
  assert (Hv : valid_date (birthday c) = true).
  { unfold recurs_yearly in Hr. now apply andb_true_iff in Hr. }
  unfold birthday_in_window.
  rewrite !candidate_eq, !recurs_valid by assumption.
  cbn [bind]. fold (hit c (year today)). fold (hit c (year today + 1)).
  now destruct (hit c (year today)).
Qed.

(** The condition of the statement on a row: the owner test, and on a row
    of the caller the window test. *)
Lemma owner_then_window_recurs (user : User) (c : Contact) :
  recurs_yearly c = true ->
  (if owned_by user c
   then birthday_in_window today dateTo (year today) (year today + 1) c
   else Ok false)
  = Ok ((hit c (year today) || hit c (year today + 1)) && owned_by user c).
Proof.
  intros Hr. destruct (owned_by user c).
  - rewrite (birthday_in_window_recurs c Hr). now rewrite andb_true_r.
  - now rewrite andb_false_r.
Qed.

Lemma upcoming_recurs (c : Contact) :
  recurs_yearly c = true ->
  hit c (year today) || hit c (year today + 1) = true <-> upcoming today days c.
Proof.
  intros Hr. destruct years_in_range as [H1 H2].
  unfold upcoming. rewrite orb_true_iff, !hit_window; [tauto| |];
    now apply recurs_valid.
Qed.

(** On any stored birthday the condition is a boolean or the range error. *)
Lemma birthday_in_window_cases (c : Contact) :
  valid_date (birthday c) = true ->
  birthday_in_window today dateTo (year today) (year today + 1) c
  = Err DatetimeFieldOverflow \/
  exists b, birthday_in_window today dateTo (year today) (year today + 1) c
            = Ok b.
Proof.
  intros Hv. destruct years_in_range as [H1 H2].
  unfold birthday_in_window. rewrite !candidate_eq by assumption.
  destruct (valid_ymd (year today) _ _); cbn [bind]; [|now left].
  destruct (between _ today dateTo); [right; eauto|].
  destruct (valid_ymd (year today + 1) _ _); cbn [bind]; [right; eauto|now left].
Qed.

Lemma birthday_in_window_leap_day (c : Contact) :
  valid_date (birthday c) = true -> leap_day (birthday c) = true ->
  is_leap (year today) = false ->
  birthday_in_window today dateTo (year today) (year today + 1) c
  = Err DatetimeFieldOverflow.
Proof.
  intros Hv Hl Hy. destruct years_in_range as [H1 H2].
  unfold birthday_in_window. rewrite candidate_eq by assumption.
  now rewrite leap_day_invalid.
Qed.

End Window.

(** C2. Today in a year before the last, a window of [days >= 0] days that
    ends on a representable date, and a table in which every birthday has an
    anniversary every year: the query returns a list, and a contact is on it
    exactly when it is the caller's and its month and day, put in this year
    or the next, give a date from [today] to [today + days], both ends
    included.  The stored year plays no part. *)
Theorem get_birthday_contacts_window (days : Z) (db : AsyncSession)
  (user : User) (today : date) :
  valid_date today = true -> year today < MAXYEAR ->
  0 <= days -> toordinal today + days <= MAXORDINAL ->
  (forall c, In c (table db) -> recurs_yearly c = true) ->
  exists l,
    get_birthday_contacts days db user today = Ok l /\
    forall c, In c l <->
              In c (table db) /\ user_id c = uid user /\ upcoming today days c.
Proof.
  intros Hv Hy Hd Hmax Hrec.
  pose proof (toordinal_bounds today Hv) as Hb.
  destruct (date_add_ordinal today days ltac:(lia)) as [dateTo [Hadd Hord]].
  unfold get_birthday_contacts.
  rewrite timedelta_ok by lia. cbn [bind]. rewrite Hadd. cbn [bind].
  set (keep := fun c : Contact =>
         (between (mkDate (year today) (month (birthday c)) (day (birthday c)))
            today dateTo ||
          between (mkDate (year today + 1) (month (birthday c)) (day (birthday c)))
            today dateTo) && owned_by user c).
  rewrite (select_where_total _ keep).
  - cbn [bind]. eexists. split; [reflexivity|].
    intros c. unfold scalars_all. rewrite filter_In. unfold keep.
    rewrite andb_true_iff. unfold owned_by. rewrite Z.eqb_eq.
    split.
    + intros [Hin [Hup Hown]]. split; [assumption|]. split; [assumption|].
      now apply (upcoming_recurs today dateTo days Hv Hy Hord c (Hrec c Hin)).
    + intros [Hin [Hown Hup]]. split; [assumption|]. split; [|assumption].
      now apply (upcoming_recurs today dateTo days Hv Hy Hord c (Hrec c Hin)).
  - intros c Hin.
    exact (owner_then_window_recurs today dateTo Hv Hy user c (Hrec c Hin)).
Qed.

(** C10. With negative [days] the query never returns a contact: a list it
    returns is empty; and it does return, the empty list, when
    [today + days] is a representable date and every birthday in the table
    has an anniversary every year. *)
Theorem get_birthday_contacts_negative_days (days : Z) (db : AsyncSession)
  (user : User) (today : date) :
  days < 0 ->
  (forall l, get_birthday_contacts days db user today = Ok l -> l = []) /\
  (valid_date today = true -> year today < MAXYEAR ->
   0 < toordinal today + days ->
   (forall c, In c (table db) -> recurs_yearly c = true) ->
   get_birthday_contacts days db user today = Ok []).
Proof.
  intros Hneg.
  assert (Hempty : forall l, get_birthday_contacts days db user today = Ok l ->
                             l = []).
  { intros l. unfold get_birthday_contacts.
    destruct (timedelta days) as [delta|e] eqn:Ht; cbn [bind]; [|discriminate].
    apply timedelta_sound in Ht. subst delta.
    destruct (date_add today days) as [dateTo|e] eqn:Ha; cbn [bind];
      [|discriminate].
    apply date_add_sound in Ha.
    destruct (select_where _ (table db)) as [rows|e] eqn:Hs; cbn [bind];
      [|discriminate].
    intros E. injection E as <-. unfold scalars_all.
    destruct rows as [|c rest]; [reflexivity|exfalso].
    destruct (select_where_sound _ _ _ Hs c (or_introl eq_refl)) as [_ Hp].
    revert Hp. destruct (owned_by user c); [|discriminate].
    unfold birthday_in_window.
    assert (Hno : forall x, between x today dateTo = false).
    { intros x. unfold between, date_leb. apply andb_false_iff.
      destruct (Z.leb_spec (toordinal today) (toordinal x)); [right|now left].
      apply Z.leb_gt. lia. }
    destruct (candidate c (year today)) as [c1|e]; cbn [bind]; [|discriminate].
    rewrite Hno.
    destruct (candidate c (year today + 1)) as [c2|e]; cbn [bind];
      [|discriminate].
    rewrite Hno. discriminate. }
  split; [exact Hempty|].
  intros Hv Hy Hpos Hrec.
  pose proof (toordinal_bounds today Hv) as Hb.
  destruct (date_add_ordinal today days ltac:(lia)) as [dateTo [Hadd Hord]].
  assert (Hret : exists l, get_birthday_contacts days db user today = Ok l).
  { unfold get_birthday_contacts.
    rewrite timedelta_ok by lia. cbn [bind]. rewrite Hadd. cbn [bind].
    erewrite select_where_total; [cbn [bind]; eauto|].
    intros c Hin.
    exact (owner_then_window_recurs today dateTo Hv Hy user c (Hrec c Hin)). }
  destruct Hret as [l Hl]. now rewrite Hl, (Hempty l Hl).
Qed.

(** C9. Today in a common year followed by a common year, a window that
    ends on a representable date, stored birthdays that are calendar dates,
    and among the caller's contacts one born on 29 February: the query does
    not return a list, it fails on the date [2902<year>] that does not
    exist. *)
Theorem get_birthday_contacts_leap_day_fails (days : Z) (db : AsyncSession)
  (user : User) (today : date) (c : Contact) :
  valid_date today = true -> year today < MAXYEAR ->
  0 < toordinal today + days <= MAXORDINAL ->
  is_leap (year today) = false -> is_leap (year today + 1) = false ->
  (forall r, In r (table db) -> valid_date (birthday r) = true) ->
  In c (table db) -> user_id c = uid user -> leap_day (birthday c) = true ->
  to_char_DDMM (birthday c) = "2902"%string /\
  candidate c (year today) = Err DatetimeFieldOverflow /\
  candidate c (year today + 1) = Err DatetimeFieldOverflow /\
  get_birthday_contacts days db user today = Err DatetimeFieldOverflow.
Proof.
  intros Hv Hy Hwin Hl1 Hl2 Hvalid Hin Hown Hleap.
  pose proof (toordinal_bounds today Hv) as Hb.
  pose proof (years_in_range today Hv Hy) as [Hy1 Hy2].
  destruct (date_add_ordinal today days ltac:(lia)) as [dateTo [Hadd Hord]].
  split; [|split; [|split]].
  - unfold leap_day in Hleap. apply andb_true_iff in Hleap.
    destruct Hleap as [Hm Hd]. apply Z.eqb_eq in Hm, Hd.
    unfold to_char_DDMM. now rewrite Hm, Hd.
  - rewrite candidate_eq by auto. now rewrite leap_day_invalid.
  - rewrite candidate_eq by auto. now rewrite leap_day_invalid.
  - unfold get_birthday_contacts.
    rewrite timedelta_ok by lia. cbn [bind]. rewrite Hadd. cbn [bind].
    erewrite select_where_fails with (c := c) (e := DatetimeFieldOverflow);
      [reflexivity|assumption| |].
    + replace (owned_by user c) with true
        by (symmetry; now apply Z.eqb_eq).
      exact (birthday_in_window_leap_day today dateTo Hv Hy c
               (Hvalid c Hin) Hleap Hl1).
    + intros r Hr. destruct (owned_by user r); [|right; eauto].
      exact (birthday_in_window_cases today dateTo Hv Hy r (Hvalid r Hr)).
Qed.

End BirthdayFacts.

(** ** The theorems at the sample data *)

Module Checks.
Import Calendar Pg Models Db Repository Spec Samples.
Import UpdateDelete QueryFacts BirthdayFacts.

Ltac by_eval := vm_compute; first [reflexivity | discriminate | intro; discriminate].

Ltac each_row :=
  let c := fresh "c" in
  let H := fresh "H" in
  intros c H; cbn in H;
  repeat (destruct H as [<-|H]); [..|contradiction].

Lemma db_two_owners_primary_key : NoDup (map id (table db_two_owners)).
Proof.
  cbn. repeat (constructor; [cbn; intuition discriminate|]). constructor.
Defined.

Lemma db_two_owners_recurs :
  forall c, In c (table db_two_owners) -> recurs_yearly c = true.
Proof. each_row; reflexivity. Defined.

(** The year-boundary case of the specification: from 30 December, five
    days ahead, the contact born on 2 January is listed through next year's
    candidate and the one born on 1 June is not. *)
Example year_boundary :
  get_birthday_contacts 5 db_two_owners alice dec30 = Ok [ann].
Proof. vm_compute. reflexivity. Qed.

(** A leap-day birthday fails the query of its owner and leaves the query
    of another user alone. *)
Example leap_day_of_another_owner :
  get_birthday_contacts 5 db_leap_of_bob alice dec30 = Ok [ann] /\
  get_birthday_contacts 5 db_leap_of_bob bob dec30 = Err DatetimeFieldOverflow.
Proof. vm_compute. split; reflexivity. Qed.

(** An update moves the row to the end of the natural order. *)
Example update_reads_last :
  update_contact 1 payload db_two_owners alice
  = Ok (Some (mkContact (key 1) "Anna" "Lee-Roy" "anna@example.com" "0509998877"
                (mkDate 1990 1 3) None 1),
        mkSession
          [june; ann_of_bob;
           mkContact (key 1) "Anna" "Lee-Roy" "anna@example.com" "0509998877"
             (mkDate 1990 1 3) None 1] 5 1).
Proof. reflexivity. Qed.

(** Both ends of the window count: the anniversary is listed when it is
    today and when it is exactly [days] ahead, and not one day further. *)
Example window_ends :
  get_birthday_contacts 0 db_two_owners alice (mkDate 2026 1 2) = Ok [ann] /\
  get_birthday_contacts 5 db_two_owners alice (mkDate 2025 12 28) = Ok [ann] /\
  get_birthday_contacts 4 db_two_owners alice (mkDate 2025 12 28) = Ok [].
Proof. vm_compute. repeat split. Qed.

Lemma get_birthday_contacts_window_witness :
  valid_date dec30 = true /\ year dec30 < MAXYEAR /\ 0 <= 5 /\
  toordinal dec30 + 5 <= MAXORDINAL /\
  (forall c, In c (table db_two_owners) -> recurs_yearly c = true) /\
  exists l,
    get_birthday_contacts 5 db_two_owners alice dec30 = Ok l /\
    forall c, In c l <->
              In c (table db_two_owners) /\ user_id c = uid alice /\
              upcoming dec30 5 c.
Proof.
  assert (H1 : valid_date dec30 = true) by reflexivity.
  assert (H2 : year dec30 < MAXYEAR) by reflexivity.
  assert (H3 : 0 <= 5) by by_eval.
  assert (H4 : toordinal dec30 + 5 <= MAXORDINAL) by by_eval.
  repeat (split; [assumption|]). split; [exact db_two_owners_recurs|].
  exact (get_birthday_contacts_window 5 db_two_owners alice dec30
           H1 H2 H3 H4 db_two_owners_recurs).
Defined.

(** C2, stated for every non-negative [days] and every table, fails at two
    inputs: with a leap-day birthday in the table, and with a window that
    ends after the last representable date.  In both, Ann is the caller's
    contact and her next anniversary lies in the window, and no list is
    returned. *)
Lemma get_birthday_contacts_window_counterexample :
  (In ann (table db_leap) /\ user_id ann = uid alice /\ 0 <= 5 /\
   upcoming dec30 5 ann /\
   get_birthday_contacts 5 db_leap alice dec30 = Err DatetimeFieldOverflow /\
   ~ exists l, get_birthday_contacts 5 db_leap alice dec30 = Ok l /\ In ann l) /\
  (In ann (table db_two_owners) /\ user_id ann = uid alice /\ 0 <= 3000000 /\
   upcoming dec30 3000000 ann /\
   get_birthday_contacts 3000000 db_two_owners alice dec30 = Err OverflowError /\
   ~ exists l, get_birthday_contacts 3000000 db_two_owners alice dec30 = Ok l /\
               In ann l).
Proof.
  assert (E1 : get_birthday_contacts 5 db_leap alice dec30
               = Err DatetimeFieldOverflow) by (vm_compute; reflexivity).
  assert (E2 : get_birthday_contacts 3000000 db_two_owners alice dec30
               = Err OverflowError) by (vm_compute; reflexivity).
  split.
  - split; [now left|]. split; [reflexivity|]. split; [by_eval|].
    split; [right; split; [reflexivity|split; by_eval]|].
    split; [exact E1|]. intros [l [Hl _]]. rewrite E1 in Hl. discriminate.
  - split; [now left|]. split; [reflexivity|]. split; [by_eval|].
    split; [right; split; [reflexivity|split; by_eval]|].
    split; [exact E2|]. intros [l [Hl _]]. rewrite E2 in Hl. discriminate.
Qed.

Lemma get_birthday_contacts_negative_days_witness :
  -3 < 0 /\ valid_date dec30 = true /\ year dec30 < MAXYEAR /\
  0 < toordinal dec30 + -3 /\
  (forall c, In c (table db_two_owners) -> recurs_yearly c = true) /\
  get_birthday_contacts (-3) db_two_owners alice dec30 = Ok [].
Proof.
  assert (H0 : -3 < 0) by reflexivity.
  assert (H1 : valid_date dec30 = true) by reflexivity.
  assert (H2 : year dec30 < MAXYEAR) by reflexivity.
  assert (H3 : 0 < toordinal dec30 + -3) by reflexivity.
  repeat (split; [assumption|]). split; [exact db_two_owners_recurs|].
  exact (proj2 (get_birthday_contacts_negative_days (-3) db_two_owners alice
                  dec30 H0) H1 H2 H3 db_two_owners_recurs).
Defined.

(** C10, stated for every negative [days] and every table, fails at two
    inputs: the query does not return the empty list when a leap-day
    birthday is in the table, nor when [today + days] is before the first
    representable date. *)
Lemma get_birthday_contacts_negative_days_counterexample :
  (-1 < 0 /\
   get_birthday_contacts (-1) db_leap alice dec30 = Err DatetimeFieldOverflow /\
   get_birthday_contacts (-1) db_leap alice dec30 <> Ok []) /\
  (-1000000 < 0 /\
   get_birthday_contacts (-1000000) db_two_owners alice dec30 = Err OverflowError /\
   get_birthday_contacts (-1000000) db_two_owners alice dec30 <> Ok []).
Proof.
  split; (split; [reflexivity|]); (split; [by_eval|by_eval]).
Qed.

Lemma get_birthday_contacts_leap_day_fails_witness :
  valid_date dec30 = true /\ year dec30 < MAXYEAR /\
  0 < toordinal dec30 + 5 <= MAXORDINAL /\
  is_leap (year dec30) = false /\ is_leap (year dec30 + 1) = false /\
  (forall r, In r (table db_leap) -> valid_date (birthday r) = true) /\
  In leo (table db_leap) /\ user_id leo = uid alice /\
  leap_day (birthday leo) = true /\
  get_birthday_contacts 5 db_leap alice dec30 = Err DatetimeFieldOverflow.
Proof.
  assert (H1 : valid_date dec30 = true) by reflexivity.
  assert (H2 : year dec30 < MAXYEAR) by reflexivity.
  assert (H3 : 0 < toordinal dec30 + 5 <= MAXORDINAL) by (split; by_eval).
  assert (H4 : is_leap (year dec30) = false) by reflexivity.
  assert (H5 : is_leap (year dec30 + 1) = false) by reflexivity.
  assert (H6 : forall r, In r (table db_leap) -> valid_date (birthday r) = true)
    by (each_row; reflexivity).
  assert (H7 : In leo (table db_leap)) by (cbn; tauto).
  assert (H8 : user_id leo = uid alice) by reflexivity.
  assert (H9 : leap_day (birthday leo) = true) by reflexivity.
  repeat (split; [assumption|]).
  exact (proj2 (proj2 (proj2
           (get_birthday_contacts_leap_day_fails 5 db_leap alice dec30 leo
              H1 H2 H3 H4 H5 H6 H7 H8 H9)))).
Defined.

Lemma update_contact_full_replace_witness :
  NoDup (map id (table db_two_owners)) /\ In ann (table db_two_owners) /\
  user_id ann = uid alice /\
  exists c' db',
    update_contact (id ann) payload db_two_owners alice = Ok (Some c', db') /\
    description c' = None /\ name c' = "Anna"%string /\
    get_contact (id ann) db' alice = Ok (Some c').
Proof.
  assert (H2 : In ann (table db_two_owners)) by (cbn; tauto).
  assert (H3 : user_id ann = uid alice) by reflexivity.
  split; [exact db_two_owners_primary_key|]. repeat (split; [assumption|]).
  destruct (update_contact_full_replace db_two_owners alice ann payload
              db_two_owners_primary_key H2 H3)
    as [c' [db' [Hup [_ [_ [Hn [_ [_ [_ [_ [Hd [Hget _]]]]]]]]]]]].
  exists c', db'. repeat split; assumption.
Defined.

Lemma update_contact_absent_witness :
  int4 1 = true /\
  (forall c, In c (table db_two_owners) ->
             ~ (id c = 1 /\ user_id c = uid bob)) /\
  update_contact 1 payload db_two_owners bob = Ok (None, db_two_owners).
Proof.
  assert (H0 : int4 1 = true) by reflexivity.
  assert (H : forall c, In c (table db_two_owners) ->
                        ~ (id c = 1 /\ user_id c = uid bob)).
  { each_row; intros [Hi Hu]; discriminate. }
  split; [exact H0|]. split; [exact H|].
  exact (update_contact_absent db_two_owners bob 1 payload H0 H).
Defined.

(** C6, stated for every contact id, fails at 2^31: no contact of Alice has
    that id, and the update does not answer not found, it raises on the id
    the column cannot hold; the handler, which lets the id through, answers
    500. *)
Lemma update_contact_absent_counterexample :
  (forall c, In c (table db_two_owners) ->
             ~ (id c = 2147483648 /\ user_id c = uid alice)) /\
  update_contact 2147483648 payload db_two_owners alice = Err DataError /\
  update_contact 2147483648 payload db_two_owners alice
  <> Ok (None, db_two_owners) /\
  Routes.update_contact payload 2147483648 db_two_owners alice
  = (Routes.server_error, db_two_owners).
Proof.
  split; [each_row; intros [Hi Hu]; discriminate|].
  split; [reflexivity|]. split; [discriminate|reflexivity].
Qed.

(** Name absent, surname and email supplied: the surname is tested and the
    email, which belongs to another contact, is not. *)
Example surname_before_email :
  get_contacts_by_params None (Some "Lee"%string)
    (Some "june@example.com"%string) db_two_owners alice
  = Ok [columns ann] /\
  get_contacts_by_params None (Some "lee"%string) None db_two_owners alice
  = Ok [].
Proof. split; reflexivity. Qed.

Lemma get_contacts_by_params_precedence_witness :
  (@None string <> None \/ Some "Lee"%string <> None \/
   Some "june@example.com"%string <> None) /\
  exists rows,
    get_contacts_by_params None (Some "Lee"%string)
      (Some "june@example.com"%string) db_two_owners alice = Ok rows /\
    forall r, In r rows <->
              exists c, In c (table db_two_owners) /\ columns c = r /\
                        surname c = "Lee"%string.
Proof.
  assert (H : @None string <> None \/ Some "Lee"%string <> None \/
              Some "june@example.com"%string <> None)
    by (right; left; discriminate).
  split; [exact H|].
  destruct (get_contacts_by_params_precedence None (Some "Lee"%string)
              (Some "june@example.com"%string) db_two_owners alice H)
    as [_ [test [rows [_ [Hrun [_ Hin]]]]]].
  exists rows. split; [exact Hrun|exact Hin].
Defined.

Lemma get_contacts_pagination_witness :
  0 <= 10 <= INT8_MAX /\
  (exists page,
     get_contacts 10 10 db_twenty alice = Ok page /\
     Z.of_nat (List.length page) <= 10) /\
  List.length (filter (owned_by alice) (table db_twenty)) = 15%nat /\
  NoDup (map id (table db_twenty)) /\
  exists p1 p2,
    get_contacts 10 0 db_twenty alice = Ok p1 /\
    get_contacts 10 10 db_twenty alice = Ok p2 /\
    List.length p1 = 10%nat /\ List.length p2 = 5%nat /\
    p1 ++ p2 = filter (owned_by alice) (table db_twenty) /\
    (forall c, In c p1 -> ~ In c p2).
Proof.
  assert (H0 : 0 <= 10 <= INT8_MAX) by (split; by_eval).
  assert (H15 : List.length (filter (owned_by alice) (table db_twenty)) = 15%nat)
    by reflexivity.
  assert (Hnd : NoDup (map id (table db_twenty))).
  { cbn. repeat (constructor; [cbn; intuition discriminate|]). constructor. }
  split; [exact H0|]. split.
  { destruct (proj1 (get_contacts_pagination db_twenty alice) 10 10 H0 H0)
      as [page [Hrun [_ [Hlen _]]]].
    exists page. split; assumption. }
  repeat (split; [assumption|]).
  destruct (proj2 (get_contacts_pagination db_twenty alice) H15)
    as [p1 [p2 [E1 [E2 [L1 [L2 [Happ Hdis]]]]]]].
  exists p1, p2. repeat (split; [assumption|]). exact (Hdis Hnd).
Defined.

(** C8, stated for a limit and an offset in general, fails at two inputs:
    at the offset 2^63, a count the handler lets through, the call raises on
    the parameter instead of returning a page; and with a negative limit the
    server refuses the statement. *)
Lemma get_contacts_pagination_counterexample :
  (0 <= 10 /\ 0 <= 9223372036854775808 /\
   get_contacts 10 9223372036854775808 db_twenty alice = Err DataError /\
   ~ exists page,
       get_contacts 10 9223372036854775808 db_twenty alice = Ok page) /\
  (get_contacts (-1) 0 db_twenty alice = Err InvalidRowCount /\
   ~ exists page, get_contacts (-1) 0 db_twenty alice = Ok page).
Proof.
  split.
  - split; [by_eval|]. split; [by_eval|]. split; [reflexivity|].
    intros [page H]. discriminate H.
  - split; [reflexivity|]. intros [page H]. discriminate H.
Qed.

End Checks.

(** ** More calendar arithmetic: one year to the next *)

Module YearFacts.
Import Calendar CalendarFacts PgFacts.

Lemma days_before_year_succ (y : Z) :
  days_before_year (y + 1)
  = days_before_year y + 365 + (if is_leap y then 1 else 0).
Proof.
  unfold days_before_year, is_leap. cbv zeta.
  replace (y + 1 - 1) with y by ring.
  destruct (Z.eqb_spec (y mod 4) 0) as [E4|E4];
    destruct (Z.eqb_spec (y mod 100) 0) as [E100|E100];
    destruct (Z.eqb_spec (y mod 400) 0) as [E400|E400];
    cbn [andb orb negb];
    Z.to_euclidean_division_equations; lia.
Qed.

(** A month starts after the previous ones have ended. *)
Lemma days_before_month_mono (y m m' : Z) :
  1 <= m -> m < m' -> m' <= 12 ->
  days_before_month y m + days_in_month y m <= days_before_month y m'.
Proof.
  intros H1 H2 H3. unfold days_before_month, days_in_month.
  assert (Hc : m = 1 \/ m = 2 \/ m = 3 \/ m = 4 \/ m = 5 \/ m = 6 \/ m = 7 \/
               m = 8 \/ m = 9 \/ m = 10 \/ m = 11) by lia.
  assert (Hc' : m' = 2 \/ m' = 3 \/ m' = 4 \/ m' = 5 \/ m' = 6 \/ m' = 7 \/
                m' = 8 \/ m' = 9 \/ m' = 10 \/ m' = 11 \/ m' = 12) by lia.
  destruct (is_leap y);
    repeat (destruct Hc as [->|Hc]); try subst m;
    repeat (destruct Hc' as [->|Hc']); try subst m';
    cbn [DAYS_BEFORE_MONTH DAYS_IN_MONTH andb Z.eqb Z.ltb Z.compare
         Pos.eqb Pos.compare Pos.compare_cont]; lia.
Qed.

(** Within one year the day number determines month and day. *)
Lemma ymd2ord_inj (y m d m' d' : Z) :
  1 <= m <= 12 -> 1 <= d <= days_in_month y m ->
  1 <= m' <= 12 -> 1 <= d' <= days_in_month y m' ->
  ymd2ord y m d = ymd2ord y m' d' -> m = m' /\ d = d'.
Proof.
  intros Hm Hd Hm' Hd' E. unfold ymd2ord in E.
  destruct (Z.lt_trichotomy m m') as [L|[->|L]].
  - pose proof (days_before_month_mono y m m' ltac:(lia) L ltac:(lia)). lia.
  - split; [reflexivity|lia].
  - pose proof (days_before_month_mono y m' m ltac:(lia) L ltac:(lia)). lia.
Qed.

(** The same month and day one year later is 365 or 366 days away. *)
Lemma ymd2ord_next_year (y m d : Z) :
  1 <= m <= 12 ->
  365 <= ymd2ord (y + 1) m d - ymd2ord y m d <= 366.
Proof.
  intros Hm. unfold ymd2ord. rewrite days_before_year_succ.
  unfold days_before_month.
  assert (Hx : is_leap y = true -> is_leap (y + 1) = false).
  { unfold is_leap. intros H. apply andb_true_iff in H. destruct H as [H _].
    apply Z.eqb_eq in H.
    replace ((y + 1) mod 4 =? 0) with false; [reflexivity|].
    symmetry. apply Z.eqb_neq. Z.to_euclidean_division_equations; lia. }
  destruct (2 <? m); cbn [andb];
    destruct (is_leap y); [rewrite (Hx eq_refl)| | |];
    try destruct (is_leap (y + 1)); lia.
Qed.

(** A date lies within its year. *)
Lemma ymd2ord_in_year (y m d : Z) :
  1 <= m <= 12 -> 1 <= d <= days_in_month y m ->
  days_before_year y < ymd2ord y m d <= days_before_year (y + 1).
Proof.
  intros Hm Hd. pose proof (day_of_year_bounds y m d Hm Hd).
  unfold ymd2ord. rewrite days_before_year_succ. lia.
Qed.

End YearFacts.

(** ** More on the birthday query *)

Module BirthdayMore.
Import Calendar Pg Models Db Repository Spec.
Import CalendarFacts PgFacts DbFacts BirthdayFacts YearFacts.

(** The list the query returns when every stored birthday has an
    anniversary every year: the rows that pass one of the two window tests
    and belong to the caller, in table order. *)
Lemma get_birthday_contacts_filter (days : Z) (db : AsyncSession)
  (user : User) (today : date) :
  valid_date today = true -> year today < MAXYEAR ->
  0 < toordinal today + days <= MAXORDINAL ->
  (forall c, In c (table db) -> recurs_yearly c = true) ->
  exists dateTo,
    toordinal dateTo = toordinal today + days /\
    get_birthday_contacts days db user today
    = Ok (filter (fun c => (hit today dateTo c (year today) ||
                            hit today dateTo c (year today + 1)) &&
                           owned_by user c) (table db)).
Proof.
  intros Hv Hy Hwin Hrec.
  pose proof (toordinal_bounds today Hv) as Hb.
  destruct (date_add_ordinal today days Hwin) as [dateTo [Hadd Hord]].
  exists dateTo. split; [assumption|].
  unfold get_birthday_contacts.
  rewrite timedelta_ok by lia. cbn [bind]. rewrite Hadd. cbn [bind].
  erewrite select_where_total; [reflexivity|].
  intros c Hin.
  exact (owner_then_window_recurs today dateTo Hv Hy user c (Hrec c Hin)).
Qed.

Lemma recurs_fields (c : Contact) (y : Z) :
  recurs_yearly c = true -> 1 <= y <= 9999 ->
  1 <= month (birthday c) <= 12 /\
  1 <= day (birthday c) <= days_in_month y (month (birthday c)).
Proof.
  intros Hr Hy. pose proof (recurs_valid c y Hr Hy) as Hv.
  apply valid_ymd_fields in Hv. tauto.
Qed.

(** X1. The candidate of a stored birthday in a year of at most four digits is
    the date with that year and the stored month and day, and it fails to
    exist only for 29 February in a common year. *)
Theorem candidate_characterised (c : Contact) (y : Z) :
  valid_date (birthday c) = true -> 1 <= y <= 9999 ->
  (leap_day (birthday c) && negb (is_leap y) = true ->
   candidate c y = Err DatetimeFieldOverflow) /\
  (leap_day (birthday c) && negb (is_leap y) = false ->
   candidate c y = Ok (mkDate y (month (birthday c)) (day (birthday c)))).
Proof.
  intros Hv Hy. rewrite (candidate_eq c y Hv Hy). split.
  - rewrite andb_true_iff, negb_true_iff. intros [Hl Hn].
    now rewrite leap_day_invalid.
  - intros Hl.
    replace (valid_ymd y (month (birthday c)) (day (birthday c))) with true;
      [reflexivity|].
    symmetry. apply valid_ymd_fields.
    unfold valid_date in Hv. apply valid_ymd_fields in Hv.
    destruct Hv as [_ [Hm Hd]]. split; [assumption|]. split; [assumption|].
    revert Hd Hl. unfold leap_day, days_in_month.
    destruct (Z.eqb_spec (month (birthday c)) 2) as [E|N]; cbn [andb]; [|tauto].
    rewrite E. cbn [DAYS_IN_MONTH].
    destruct (Z.eqb_spec (day (birthday c)) 29) as [E29|N29];
      destruct (is_leap (year (birthday c))), (is_leap y); cbn [negb andb];
      intros; try discriminate; lia.
Qed.

(** X2. A window of 366 days or more contains an anniversary of every birthday:
    the query lists all the caller's contacts. *)
Theorem get_birthday_contacts_whole_year (days : Z) (db : AsyncSession)
  (user : User) (today : date) :
  valid_date today = true -> year today < MAXYEAR ->
  366 <= days -> toordinal today + days <= MAXORDINAL ->
  (forall c, In c (table db) -> recurs_yearly c = true) ->
  get_birthday_contacts days db user today
  = Ok (filter (owned_by user) (table db)).
Proof.
  intros Hv Hy Hd Hmax Hrec.
  pose proof (toordinal_bounds today Hv) as Hb.
  destruct (get_birthday_contacts_filter days db user today Hv Hy
              ltac:(lia) Hrec) as [dateTo [Hord Hrun]].
  rewrite Hrun. f_equal. apply filter_ext_in. intros c Hin.
  replace (hit today dateTo c (year today) ||
           hit today dateTo c (year today + 1)) with true; [reflexivity|].
  symmetry.
  apply (upcoming_recurs today dateTo days Hv Hy Hord c (Hrec c Hin)).
  destruct (years_in_range today Hv Hy) as [Hy1 Hy2].
  pose proof (recurs_valid c _ (Hrec c Hin) Hy1) as V1.
  pose proof (recurs_valid c _ (Hrec c Hin) Hy2) as V2.
  destruct (recurs_fields c _ (Hrec c Hin) Hy1) as [Hm Hd1].
  pose proof (ymd2ord_in_year _ _ _ Hm Hd1) as I1.
  pose proof (ymd2ord_next_year (year today) _ (day (birthday c)) Hm) as N.
  unfold valid_date in Hv. apply valid_ymd_fields in Hv.
  destruct Hv as [_ [Htm Htd]].
  pose proof (ymd2ord_in_year _ _ _ Htm Htd) as IT.
  fold (toordinal today) in IT.
  destruct (recurs_fields c _ (Hrec c Hin) Hy2) as [_ Hd2].
  pose proof (ymd2ord_in_year _ _ _ Hm Hd2) as I2.
  rewrite days_before_year_succ in IT.
  assert (0 <= (if is_leap (year today) then 1 else 0) <= 1)
    by (destruct (is_leap (year today)); lia).
  unfold upcoming, candidate_in_window.
  destruct (Z.le_gt_cases (toordinal today)
              (ymd2ord (year today) (month (birthday c)) (day (birthday c)))).
  - left. split; [assumption|].
    rewrite days_before_year_succ in I1. lia.
  - right. split; [assumption|]. lia.
Qed.

(** X3. With [days = 0] the query lists the caller's contacts whose month and
    day are today's, and no other. *)
Theorem get_birthday_contacts_today (db : AsyncSession) (user : User)
  (today : date) :
  valid_date today = true -> year today < MAXYEAR ->
  (forall c, In c (table db) -> recurs_yearly c = true) ->
  get_birthday_contacts 0 db user today
  = Ok (filter (fun c => (month (birthday c) =? month today) &&
                         (day (birthday c) =? day today) &&
                         owned_by user c) (table db)).
Proof.
  intros Hv Hy Hrec.
  pose proof (toordinal_bounds today Hv) as Hb.
  destruct (get_birthday_contacts_filter 0 db user today Hv Hy
              ltac:(lia) Hrec) as [dateTo [Hord Hrun]].
  rewrite Hrun. f_equal. apply filter_ext_in. intros c Hin. f_equal.
  apply eq_true_iff_eq.
  rewrite (upcoming_recurs today dateTo 0 Hv Hy Hord c (Hrec c Hin)).
  rewrite andb_true_iff, !Z.eqb_eq.
  destruct (years_in_range today Hv Hy) as [Hy1 Hy2].
  pose proof (recurs_valid c _ (Hrec c Hin) Hy1) as V1.
  pose proof (recurs_valid c _ (Hrec c Hin) Hy2) as V2.
  destruct (recurs_fields c _ (Hrec c Hin) Hy1) as [Hm Hd1].
  destruct (recurs_fields c _ (Hrec c Hin) Hy2) as [_ Hd2].
  pose proof (ymd2ord_in_year _ _ _ Hm Hd2) as I2.
  unfold valid_date in Hv. apply valid_ymd_fields in Hv.
  destruct Hv as [_ [Htm Htd]].
  pose proof (ymd2ord_in_year _ _ _ Htm Htd) as IT.
  fold (toordinal today) in IT.
  unfold upcoming, candidate_in_window. split.
  - intros [[_ Hw]|[_ Hw]]; [|lia].
    apply (ymd2ord_inj (year today)); try assumption.
    unfold toordinal in Hw. unfold ymd2ord in *. lia.
  - intros [Em Ed]. left. split; [assumption|].
    rewrite Em, Ed. fold (toordinal today). lia.
Qed.

(** X4. A longer window never drops a contact. *)
Theorem get_birthday_contacts_monotone (days days' : Z) (db : AsyncSession)
  (user : User) (today : date) :
  valid_date today = true -> year today < MAXYEAR ->
  0 <= days -> days <= days' -> toordinal today + days' <= MAXORDINAL ->
  (forall c, In c (table db) -> recurs_yearly c = true) ->
  exists l l',
    get_birthday_contacts days db user today = Ok l /\
    get_birthday_contacts days' db user today = Ok l' /\
    forall c, In c l -> In c l'.
Proof.
  intros Hv Hy H0 Hle Hmax Hrec.
  pose proof (toordinal_bounds today Hv) as Hb.
  destruct (get_birthday_contacts_filter days db user today Hv Hy
              ltac:(lia) Hrec) as [dateTo [Hord Hrun]].
  destruct (get_birthday_contacts_filter days' db user today Hv Hy
              ltac:(lia) Hrec) as [dateTo' [Hord' Hrun']].
  eexists. eexists. split; [exact Hrun|]. split; [exact Hrun'|].
  intros c. rewrite !filter_In, !andb_true_iff.
  intros [Hin [Hup Hown]]. split; [assumption|]. split; [|assumption].
  apply (upcoming_recurs today dateTo' days' Hv Hy Hord' c (Hrec c Hin)).
  apply (upcoming_recurs today dateTo days Hv Hy Hord c (Hrec c Hin)) in Hup.
  unfold upcoming, candidate_in_window in *.
  destruct Hup as [[V W]|[V W]]; [left|right]; (split; [assumption|lia]).
Qed.

End BirthdayMore.

(** ** More on create, update, delete and the pages *)

Module CrudMore.
Import Models Db Repository Spec DbFacts MutationFacts UpdateDelete QueryFacts.

Lemma create_contact_ok (body : Schemas.ContactSchema) (db : AsyncSession)
  (user : User) :
  well_formed db -> int4 (next_id db) = true ->
  exists i,
    int_val i = next_id db /\
    let c :=
      mkContact i (Schemas.name body) (Schemas.surname body)
        (Schemas.email body) (Schemas.phone_number body)
        (Schemas.birthday body) (Schemas.description body) (uid user) in
    ~ In (id c) (map id (table db)) /\
    create_contact body db user
    = Ok (c, mkSession (table db ++ [c]) (next_id db + 1) (S (commits db))).
Proof.
  intros [Hnd Hseq] Hi4. destruct (nextval_ok db Hi4) as [i [Hnv Hi]].
  exists i. split; [exact Hi|]. intros c.
  assert (Hc : id c = next_id db) by exact Hi.
  assert (Hfresh : ~ In (id c) (map id (table db))).
  { intros H. apply in_map_iff in H. destruct H as [x [Hx Hin]].
    specialize (Hseq x Hin). lia. }
  split; [exact Hfresh|].
  unfold create_contact. rewrite Hnv. cbn [bind].
  fold c. unfold refresh, commit. cbn [table].
  replace (find (fun r => id r =? id c) (table db ++ [c])) with (Some c);
    [reflexivity|].
  symmetry. clear Hnd Hseq. induction (table db) as [|r rest IH].
  - cbn [app find]. now rewrite Z.eqb_refl.
  - cbn [app find]. destruct (Z.eqb_spec (id r) (id c)) as [E|N].
    + exfalso. apply Hfresh. left. exact E.
    + apply IH. intros H. apply Hfresh. now right.
Qed.

(** Once the sequence is past the last value the column can hold, create
    fails and the handler answers 500. *)
Lemma create_contact_exhausted (body : Schemas.ContactSchema)
  (db : AsyncSession) (user : User) :
  int4 (next_id db) = false ->
  create_contact body db user = Err DataError /\
  MoreRoutes.create_contact body db user = (Routes.server_error, db).
Proof.
  intros H.
  assert (E : create_contact body db user = Err DataError).
  { unfold create_contact. now rewrite (nextval_fails db H). }
  split; [exact E|]. unfold MoreRoutes.create_contact. now rewrite E.
Qed.

(** X5. Create on a table that keeps its primary key and sequence, the next
    value of the sequence one the 32-bit id column can hold: the record
    returned has the payload's attributes, the caller as owner and an id no
    row had; it is appended to the table, read back by its id, and answered
    with 201. *)
Theorem create_contact_round_trip (body : Schemas.ContactSchema)
  (db : AsyncSession) (user : User) :
  well_formed db -> int4 (next_id db) = true ->
  exists c db',
    create_contact body db user = Ok (c, db') /\
    ~ In (id c) (map id (table db)) /\
    name c = Schemas.name body /\ surname c = Schemas.surname body /\
    email c = Schemas.email body /\
    phone_number c = Schemas.phone_number body /\
    birthday c = Schemas.birthday body /\
    description c = Schemas.description body /\
    user_id c = uid user /\
    table db' = table db ++ [c] /\
    commits db' = S (commits db) /\
    get_contact (id c) db' user = Ok (Some c) /\
    MoreRoutes.create_contact body db user
    = (Routes.mkResponse 201 (Routes.OneContact c), db').
Proof.
  intros Hwf Hi4.
  destruct (create_contact_ok body db user Hwf Hi4) as [i [Hi [Hfresh Hrun]]].
  cbv zeta in Hfresh, Hrun.
  eexists. eexists. split; [exact Hrun|]. split; [exact Hfresh|].
  do 9 (split; [reflexivity|]). split.
  - unfold get_contact. rewrite (bind_int4_ok _ (id_int4 _)). cbn [bind].
    apply lookup_found.
    + cbn [table]. rewrite map_app. cbn [map].
      apply NoDup_app; [apply Hwf| |].
      * constructor; [intros []|constructor].
      * intros x Hx [<-|[]]. now apply Hfresh.
    + cbn [table]. apply in_or_app. right. now left.
    + reflexivity.
  - unfold MoreRoutes.create_contact. now rewrite Hrun.
Qed.

(** X6. The primary key and the sequence ahead of it survive every mutation. *)
Theorem mutations_keep_well_formed (db db' : AsyncSession) (user : User) :
  well_formed db ->
  (forall body c, create_contact body db user = Ok (c, db') -> well_formed db') /\
  (forall contact_id body o,
     update_contact contact_id body db user = Ok (o, db') -> well_formed db') /\
  (forall contact_id o,
     delete_contact contact_id db user = Ok (o, db') -> well_formed db').
Proof.
  intros Hwf. pose proof Hwf as [Hnd Hseq]. split; [|split].
  - intros body c Hrun.
    assert (Hi4 : int4 (next_id db) = true).
    { destruct (int4 (next_id db)) eqn:E; [reflexivity|].
      unfold create_contact in Hrun. rewrite (nextval_fails db E) in Hrun.
      discriminate. }
    destruct (create_contact_ok body db user Hwf Hi4) as [i [Hi [Hfresh Hok]]].
    cbv zeta in Hfresh, Hok. rewrite Hok in Hrun. injection Hrun as _ <-.
    split; cbn [table next_id].
    + rewrite map_app. cbn [map]. apply NoDup_app; [assumption| |].
      * constructor; [intros []|constructor].
      * intros x Hx [<-|[]]. now apply Hfresh.
    + intros x Hx. apply in_app_or in Hx. destruct Hx as [Hx|[<-|[]]].
      * specialize (Hseq x Hx). lia.
      * change (int_val i < next_id db + 1). lia.
  - intros contact_id body o Hrun. apply update_contact_inv in Hrun.
    destruct Hrun as [_ [[_ ->]|[c [Hin [Hid [Hown Hres]]]]]]; [assumption|].
    cbv zeta in Hres. destruct Hres as [_ ->]. split; cbn [table next_id].
    + now apply NoDup_flush_update.
    + intros x Hx. apply in_flush_update in Hx.
      destruct Hx as [[Hx _]| ->]; [now apply Hseq|].
      change (id c < next_id db). now apply Hseq.
  - intros contact_id o Hrun. apply delete_contact_inv in Hrun.
    destruct Hrun as [_ [[_ ->]|[c [Hin [Hid [Hown [_ ->]]]]]]]; [assumption|].
    split; cbn [table next_id].
    + now apply NoDup_map_filter.
    + intros x Hx. apply in_flush_delete in Hx. now apply Hseq.
Qed.

(** X7. An update, found or not, adds no row, removes none, and changes no
    id and no owner: the (id, owner) pairs of the table after it are those
    before it, up to the order of the rows, and the sequence is where it
    was. *)
Theorem update_contact_keeps_ids_and_owners (contact_id : Z)
  (body : Schemas.ContactSchema) (db db' : AsyncSession) (user : User)
  (o : option Contact) :
  NoDup (map id (table db)) ->
  update_contact contact_id body db user = Ok (o, db') ->
  Permutation (map (fun r => (id r, user_id r)) (table db'))
              (map (fun r => (id r, user_id r)) (table db)) /\
  List.length (table db') = List.length (table db) /\
  next_id db' = next_id db.
Proof.
  intros Hnd Hrun. apply update_contact_inv in Hrun.
  destruct Hrun as [_ [[_ ->]|[c [Hin [Hid [Hown Hres]]]]]].
  - split; [apply Permutation_refl|]. now split.
  - cbv zeta in Hres. destruct Hres as [_ ->]. cbn [table next_id].
    assert (Hp : Permutation
                   (map (fun r => (id r, user_id r))
                      (flush_update
                         (mkContact (pk c) (Schemas.name body)
                            (Schemas.surname body) (Schemas.email body)
                            (Schemas.phone_number body) (Schemas.birthday body)
                            (Schemas.description body) (user_id c))
                         (table db)))
                   (map (fun r => (id r, user_id r)) (table db))).
    { unfold flush_update.
      replace (map (fun r => (id r, user_id r))
                 (flush_delete
                    (mkContact (pk c) (Schemas.name body) (Schemas.surname body)
                       (Schemas.email body) (Schemas.phone_number body)
                       (Schemas.birthday body) (Schemas.description body)
                       (user_id c)) (table db) ++
                  [mkContact (pk c) (Schemas.name body) (Schemas.surname body)
                     (Schemas.email body) (Schemas.phone_number body)
                     (Schemas.birthday body) (Schemas.description body)
                     (user_id c)]))
        with (map (fun r => (id r, user_id r)) (flush_delete c (table db) ++ [c]))
        by (now rewrite !map_app).
      apply Permutation_map. now apply flush_delete_permutation. }
    split; [exact Hp|]. split; [|reflexivity].
    apply Permutation_length in Hp. now rewrite !length_map in Hp.
Qed.

(** X8. The same update issued twice: the second returns the same record and
    leaves the rows as the first left them. *)
Theorem update_contact_twice (db : AsyncSession) (user : User) (c : Contact)
  (body : Schemas.ContactSchema) :
  NoDup (map id (table db)) -> In c (table db) -> user_id c = uid user ->
  exists c' db1 db2,
    update_contact (id c) body db user = Ok (Some c', db1) /\
    update_contact (id c) body db1 user = Ok (Some c', db2) /\
    table db2 = table db1 /\
    commits db2 = S (S (commits db)).
Proof.
  intros Hnd Hin Hown.
  pose proof (update_contact_found db user c body Hnd Hin Hown) as H1.
  cbv zeta in H1.
  set (c' := mkContact (pk c) (Schemas.name body) (Schemas.surname body)
               (Schemas.email body) (Schemas.phone_number body)
               (Schemas.birthday body) (Schemas.description body) (user_id c))
    in *.
  set (db1 := mkSession (flush_update c' (table db)) (next_id db)
                (S (commits db))) in *.
  assert (Hnd1 : NoDup (map id (table db1)))
    by (cbn [db1 table]; now apply NoDup_flush_update).
  assert (Hin1 : In c' (table db1)).
  { cbn [db1 table]. apply in_flush_update. now right. }
  pose proof (update_contact_found db1 user c' body Hnd1 Hin1 Hown) as H2.
  cbv zeta in H2.
  change (mkContact (pk c') (Schemas.name body) (Schemas.surname body)
            (Schemas.email body) (Schemas.phone_number body)
            (Schemas.birthday body) (Schemas.description body) (user_id c'))
    with c' in H2.
  change (id c') with (id c) in H2 at 1.
  eexists. eexists. eexists. split; [exact H1|]. split; [exact H2|].
  split; [|reflexivity].
  cbn [db1 table]. unfold flush_update, flush_delete.
  rewrite filter_app. cbn [filter]. rewrite Z.eqb_refl. cbn [negb].
  rewrite app_nil_r. f_equal.
  apply forallb_filter_id. apply forallb_forall. intros r Hr.
  now apply filter_In in Hr.
Qed.

Lemma length_flush_delete (c : Contact) (rows : list Contact) :
  NoDup (map id rows) -> In c rows ->
  S (List.length (flush_delete c rows)) = List.length rows.
Proof.
  induction rows as [|r rest IH]; intros Hnd Hin; [contradiction|].
  cbn [map] in Hnd. apply NoDup_cons_iff in Hnd. destruct Hnd as [Hfresh Hnd].
  unfold flush_delete in *. cbn [filter List.length].
  destruct Hin as [->|Hin].
  - rewrite Z.eqb_refl. cbn [negb]. f_equal.
    clear IH Hnd. induction rest as [|x rest IH]; [reflexivity|].
    cbn [filter]. destruct (Z.eqb_spec (id x) (id c)) as [E|N].
    + exfalso. apply Hfresh. left. exact E.
    + cbn [negb List.length]. f_equal. apply IH. intros H. apply Hfresh.
      now right.
  - destruct (Z.eqb_spec (id r) (id c)) as [E|N].
    + exfalso. apply Hfresh. rewrite E. now apply in_map.
    + cbn [negb List.length]. f_equal. now apply IH.
Qed.

(** X9. Delete, then read and delete again: the first takes exactly one row out,
    the read finds nothing, and the second delete answers not found and
    leaves the session as it is. *)
Theorem delete_contact_twice (db : AsyncSession) (user : User) (c : Contact) :
  NoDup (map id (table db)) -> In c (table db) -> user_id c = uid user ->
  exists db1,
    delete_contact (id c) db user = Ok (Some c, db1) /\
    S (List.length (table db1)) = List.length (table db) /\
    get_contact (id c) db1 user = Ok None /\
    delete_contact (id c) db1 user = Ok (None, db1).
Proof.
  intros Hnd Hin Hown. pose proof (id_int4 c) as Hi4.
  unfold delete_contact at 1.
  rewrite (bind_int4_ok _ Hi4). cbn [bind].
  rewrite (lookup_found db user c Hnd Hin Hown). cbn [bind].
  eexists. split; [reflexivity|]. unfold commit. cbn [table].
  assert (Habs : forall r, In r (flush_delete c (table db)) ->
                           ~ (id r = id c /\ user_id r = uid user)).
  { intros r Hr [Hid _]. apply in_flush_delete in Hr. tauto. }
  split; [now apply length_flush_delete|]. split.
  - unfold get_contact. rewrite (bind_int4_ok _ Hi4). cbn [bind].
    now apply lookup_absent.
  - now apply delete_contact_absent.
Qed.

End CrudMore.

(** ** More on the reads and the handlers *)

Module ReadMore.
Import Models Db Repository Spec DbFacts MutationFacts UpdateDelete QueryFacts.

Lemma firstn_add (A : Type) (a b : nat) (l : list A) :
  firstn (a + b) l = firstn a l ++ firstn b (skipn a l).
Proof.
  revert l. induction a as [|a IH]; intros l; [reflexivity|].
  destruct l as [|x l]; [now destruct b|].
  cbn [Nat.add firstn skipn app]. now rewrite IH.
Qed.

(** X10. Consecutive pages join into the larger page: what [limit1] rows from
    [offset] and [limit2] rows from [offset + limit1] return, end to end, is
    what [limit1 + limit2] rows from [offset] return, for counts that a
    64-bit parameter can hold. *)
Theorem get_contacts_pages_join (limit1 limit2 offset : Z)
  (db : AsyncSession) (user : User) :
  0 <= limit1 -> 0 <= limit2 -> 0 <= offset ->
  limit1 + limit2 <= INT8_MAX -> offset + limit1 <= INT8_MAX ->
  exists p1 p2,
    get_contacts limit1 offset db user = Ok p1 /\
    get_contacts limit2 (offset + limit1) db user = Ok p2 /\
    get_contacts (limit1 + limit2) offset db user = Ok (p1 ++ p2).
Proof.
  intros H1 H2 Ho Hl Hol. rewrite !get_contacts_page by lia.
  eexists. eexists. split; [reflexivity|]. split; [reflexivity|].
  rewrite !Z2Nat.inj_add by lia. rewrite firstn_add. f_equal. f_equal. f_equal.
  rewrite skipn_skipn. f_equal. lia.
Qed.

(** X11. The ends of the list, for counts that a 64-bit parameter can hold:
    an offset at or past the number of owned contacts gives the empty page,
    and from offset 0 a limit of at least that number gives them all.  An
    offset past the 64-bit range gives no page: the call raises. *)
Theorem get_contacts_ends (limit offset : Z) (db : AsyncSession) (user : User) :
  0 <= limit <= INT8_MAX ->
  (0 <= offset <= INT8_MAX ->
   Z.of_nat (List.length (filter (owned_by user) (table db))) <= offset ->
   get_contacts limit offset db user = Ok []) /\
  (Z.of_nat (List.length (filter (owned_by user) (table db))) <= limit ->
   get_contacts limit 0 db user = Ok (filter (owned_by user) (table db))) /\
  (INT8_MAX < offset -> get_contacts limit offset db user = Err DataError).
Proof.
  intros Hl. split; [|split].
  - intros Ho Hn. rewrite get_contacts_page by lia.
    rewrite skipn_all2 by lia. now rewrite firstn_nil.
  - intros Hn. rewrite get_contacts_page by (unfold INT8_MAX in *; lia).
    cbn [Z.to_nat skipn]. now rewrite firstn_all2 by lia.
  - intros Ho. apply get_contacts_out_of_range; [|assumption].
    unfold INT8_MIN. lia.
Qed.

(** X12. The list handler: 422 for a limit outside 10..500 or a negative
    offset; 200 with a page of at most 500 rows, all the caller's, for an
    offset that a 64-bit parameter can hold; and 500 for an offset past that
    range, which the validation lets through. *)
Theorem get_contacts_route (limit offset : Z) (db : AsyncSession) (user : User) :
  (limit < 10 \/ 500 < limit \/ offset < 0 ->
   Routes.get_contacts limit offset db user = Routes.validation_error) /\
  (10 <= limit <= 500 -> 0 <= offset <= INT8_MAX ->
   exists page,
     Routes.get_contacts limit offset db user
     = Routes.mkResponse 200 (Routes.Contacts page) /\
     (List.length page <= 500)%nat /\
     forall c, In c page -> In c (table db) /\ user_id c = uid user) /\
  (10 <= limit <= 500 -> INT8_MAX < offset ->
   Routes.get_contacts limit offset db user = Routes.server_error).
Proof.
  unfold Routes.get_contacts. split; [|split].
  - intros H.
    replace ((10 <=? limit) && (limit <=? 500) && (0 <=? offset)) with false;
      [reflexivity|].
    symmetry. rewrite !andb_false_iff, !Z.leb_gt. lia.
  - intros Hl Ho.
    replace ((10 <=? limit) && (limit <=? 500) && (0 <=? offset)) with true
      by (symmetry; rewrite !andb_true_iff, !Z.leb_le; lia).
    rewrite get_contacts_page by (unfold INT8_MAX in *; lia).
    eexists. split; [reflexivity|]. split.
    + rewrite length_firstn. lia.
    + intros c. apply in_page_owned.
  - intros Hl Ho.
    replace ((10 <=? limit) && (limit <=? 500) && (0 <=? offset)) with true
      by (symmetry; rewrite !andb_true_iff, !Z.leb_le;
          unfold INT8_MAX in *; lia).
    rewrite get_contacts_out_of_range; [reflexivity| |assumption].
    unfold INT8_MIN. lia.
Qed.

(** X13. Whatever the three reads that name the caller return, they return rows
    of the table that the caller owns. *)
Theorem reads_owner_scoped (db : AsyncSession) (user : User) :
  (forall limit offset l,
     get_contacts limit offset db user = Ok l ->
     forall c, In c l -> In c (table db) /\ user_id c = uid user) /\
  (forall contact_id c,
     get_contact contact_id db user = Ok (Some c) ->
     In c (table db) /\ id c = contact_id /\ user_id c = uid user) /\
  (forall days today l,
     get_birthday_contacts days db user today = Ok l ->
     forall c, In c l -> In c (table db) /\ user_id c = uid user).
Proof.
  split; [|split].
  - intros limit offset l. unfold get_contacts, offset_limit, scalars_all.
    destruct (bind_int8 offset) as [o|e]; cbn [bind]; [|discriminate].
    destruct (bind_int8 limit) as [n|e]; cbn [bind]; [|discriminate].
    destruct ((o <? 0) || (n <? 0)); cbn [bind]; [discriminate|].
    intros E c. injection E as <-. apply in_page_owned.
  - intros contact_id c. apply get_contact_owner_scoped.
  - intros days today l. apply get_birthday_contacts_owner_scoped.
Qed.

(** X14. No mutation by one user adds, removes or alters a row of another. *)
Theorem mutations_leave_other_owners (db db' : AsyncSession) (user : User)
  (x : Contact) :
  NoDup (map id (table db)) -> user_id x <> uid user ->
  (forall body c,
     create_contact body db user = Ok (c, db') ->
     (In x (table db') <-> In x (table db))) /\
  (forall contact_id body o,
     update_contact contact_id body db user = Ok (o, db') ->
     (In x (table db') <-> In x (table db))) /\
  (forall contact_id o,
     delete_contact contact_id db user = Ok (o, db') ->
     (In x (table db') <-> In x (table db))).
Proof.
  intros Hnd Hx. split; [|split].
  - intros body c. unfold create_contact.
    destruct (nextval db) as [i|e]; cbn [bind]; [|discriminate].
    destruct (refresh _ _) as [r|e]; cbn [bind]; [|discriminate].
    intros E. injection E as _ <-. unfold commit. cbn [table].
    rewrite in_app_iff. split; [|tauto].
    intros [H|[H|[]]]; [assumption|]. subst x. now cbn in Hx.
  - intros contact_id body o Hrun.
    now apply (update_contact_other_owners contact_id body db db' user o).
  - intros contact_id o Hrun.
    now apply (delete_contact_other_owners contact_id db db' user o).
Qed.

(** X15. The lookup handler, for ids the 32-bit id column can hold, answers
    for a contact of another user exactly as for an id that no contact has,
    404, and 200 with the contact for its owner; for an id past that range
    it answers 500. *)
Theorem get_contact_route (db : AsyncSession) (a b : User) (c : Contact)
  (missing : Z) :
  NoDup (map id (table db)) -> In c (table db) -> user_id c = uid a ->
  uid a <> uid b ->
  Routes.get_contact (id c) db a
  = Routes.mkResponse 200 (Routes.OneContact c) /\
  Routes.get_contact (id c) db b
  = Routes.mkResponse 404 (Routes.Detail "Contact not found") /\
  (int4 missing = true -> (forall r, In r (table db) -> id r <> missing) ->
   Routes.get_contact (id c) db b = Routes.get_contact missing db b) /\
  (int4 missing = false ->
   Routes.get_contact missing db b = Routes.server_error).
Proof.
  intros Hnd Hin Hown Hab. pose proof (id_int4 c) as Hi4.
  assert (Hb : get_contact (id c) db b = Ok None)
    by (apply (get_contact_other_owner db a b c); assumption).
  unfold Routes.get_contact. rewrite Hb.
  split; [|split; [reflexivity|split]].
  - unfold get_contact. rewrite (bind_int4_ok _ Hi4). cbn [bind].
    now rewrite (lookup_found db a c Hnd Hin Hown).
  - intros Hm Hmiss. unfold get_contact.
    rewrite (bind_int4_ok _ Hm). cbn [bind].
    rewrite lookup_absent; [reflexivity|].
    intros r Hr [Hid _]. now apply (Hmiss r Hr).
  - intros Hm. unfold get_contact. now rewrite (bind_int4_fails _ Hm).
Qed.

End ReadMore.

(** ** The health check *)

Module MainFacts.
Import Main.

(** X16. The health check answers the welcome message when a row was fetched and
    otherwise always the same 500, "Error connection to database": the
    exception it raises for a missing row is caught by its own handler, so
    "Database is not configured correctly" never leaves it. *)
Theorem healthchecker_answers (fetched : result (option Z)) :
  healthchecker fetched
  = match fetched with
    | Ok (Some _) => inr "Welcome to FastAPI!"%string
    | _ => inl (HTTPException 500 "Error connection to database")
    end /\
  healthchecker fetched
  <> inl (HTTPException 500 "Database is not configured correctly").
Proof.
  destruct fetched as [[row|]|e]; split; try reflexivity;
    cbn; intros H; discriminate H.
Qed.

End MainFacts.

(** ** These theorems at the sample data *)

Module MoreChecks.
Import Calendar Pg Models Db Repository Spec Samples.
Import UpdateDelete QueryFacts BirthdayFacts Checks.
Import BirthdayMore CrudMore ReadMore.

Lemma db_two_owners_well_formed : well_formed db_two_owners.
Proof.
  split; [exact db_two_owners_primary_key|]. each_row; reflexivity.
Defined.

Lemma candidate_characterised_witness :
  valid_date (birthday leo) = true /\ 1 <= 2025 <= 9999 /\
  leap_day (birthday leo) && negb (is_leap 2025) = true /\
  candidate leo 2025 = Err DatetimeFieldOverflow.
Proof.
  assert (H1 : valid_date (birthday leo) = true) by reflexivity.
  assert (H2 : 1 <= 2025 <= 9999) by (split; by_eval).
  assert (H3 : leap_day (birthday leo) && negb (is_leap 2025) = true)
    by reflexivity.
  repeat (split; [assumption|]).
  exact (proj1 (candidate_characterised leo 2025 H1 H2) H3).
Defined.

Lemma get_birthday_contacts_whole_year_witness :
  valid_date dec30 = true /\ year dec30 < MAXYEAR /\ 366 <= 366 /\
  toordinal dec30 + 366 <= MAXORDINAL /\
  (forall c, In c (table db_two_owners) -> recurs_yearly c = true) /\
  get_birthday_contacts 366 db_two_owners alice dec30
  = Ok (filter (owned_by alice) (table db_two_owners)).
Proof.
  assert (H1 : valid_date dec30 = true) by reflexivity.
  assert (H2 : year dec30 < MAXYEAR) by reflexivity.
  assert (H3 : 366 <= 366) by by_eval.
  assert (H4 : toordinal dec30 + 366 <= MAXORDINAL) by by_eval.
  repeat (split; [assumption|]). split; [exact db_two_owners_recurs|].
  exact (get_birthday_contacts_whole_year 366 db_two_owners alice dec30
           H1 H2 H3 H4 db_two_owners_recurs).
Defined.

Lemma get_birthday_contacts_today_witness :
  valid_date (mkDate 2026 1 2) = true /\ year (mkDate 2026 1 2) < MAXYEAR /\
  (forall c, In c (table db_two_owners) -> recurs_yearly c = true) /\
  get_birthday_contacts 0 db_two_owners alice (mkDate 2026 1 2)
  = Ok (filter (fun c => (month (birthday c) =? 1) && (day (birthday c) =? 2) &&
                         owned_by alice c) (table db_two_owners)).
Proof.
  assert (H1 : valid_date (mkDate 2026 1 2) = true) by reflexivity.
  assert (H2 : year (mkDate 2026 1 2) < MAXYEAR) by reflexivity.
  repeat (split; [assumption|]). split; [exact db_two_owners_recurs|].
  exact (get_birthday_contacts_today db_two_owners alice (mkDate 2026 1 2)
           H1 H2 db_two_owners_recurs).
Defined.

Lemma get_birthday_contacts_monotone_witness :
  valid_date dec30 = true /\ year dec30 < MAXYEAR /\ 0 <= 2 /\ 2 <= 200 /\
  toordinal dec30 + 200 <= MAXORDINAL /\
  (forall c, In c (table db_two_owners) -> recurs_yearly c = true) /\
  exists l l',
    get_birthday_contacts 2 db_two_owners alice dec30 = Ok l /\
    get_birthday_contacts 200 db_two_owners alice dec30 = Ok l' /\
    forall c, In c l -> In c l'.
Proof.
  assert (H1 : valid_date dec30 = true) by reflexivity.
  assert (H2 : year dec30 < MAXYEAR) by reflexivity.
  assert (H3 : 0 <= 2) by by_eval.
  assert (H4 : 2 <= 200) by by_eval.
  assert (H5 : toordinal dec30 + 200 <= MAXORDINAL) by by_eval.
  repeat (split; [assumption|]). split; [exact db_two_owners_recurs|].
  exact (get_birthday_contacts_monotone 2 200 db_two_owners alice dec30
           H1 H2 H3 H4 H5 db_two_owners_recurs).
Defined.

Lemma create_contact_round_trip_witness :
  well_formed db_two_owners /\ int4 (next_id db_two_owners) = true /\
  exists c db',
    create_contact payload db_two_owners bob = Ok (c, db') /\
    ~ In (id c) (map id (table db_two_owners)) /\
    user_id c = uid bob /\
    table db' = table db_two_owners ++ [c] /\
    get_contact (id c) db' bob = Ok (Some c).
Proof.
  assert (H : int4 (next_id db_two_owners) = true) by reflexivity.
  split; [exact db_two_owners_well_formed|]. split; [exact H|].
  destruct (create_contact_round_trip payload db_two_owners bob
              db_two_owners_well_formed H)
    as [c [db' [Hrun [Hfresh [_ [_ [_ [_ [_ [_ [Hown [Htab [_ [Hget _]]]]]]]]]]]]]].
  exists c, db'. repeat split; assumption.
Defined.

(** The session after Alice deleted her contact 1. *)
Lemma mutations_keep_well_formed_witness :
  well_formed db_two_owners /\
  delete_contact 1 db_two_owners alice
  = Ok (Some ann, mkSession [june; ann_of_bob] 5 1) /\
  well_formed (mkSession [june; ann_of_bob] 5 1).
Proof.
  assert (H : delete_contact 1 db_two_owners alice
              = Ok (Some ann, mkSession [june; ann_of_bob] 5 1))
    by reflexivity.
  split; [exact db_two_owners_well_formed|]. split; [exact H|].
  exact (proj2 (proj2 (mutations_keep_well_formed db_two_owners
                         (mkSession [june; ann_of_bob] 5 1) alice
                         db_two_owners_well_formed)) 1 (Some ann) H).
Defined.

(** Alice updates her contact 1: the table reads the ids 2, 4, 1 where it
    read 1, 2, 4. *)
Lemma update_contact_keeps_ids_and_owners_witness :
  NoDup (map id (table db_two_owners)) /\
  exists o db',
    update_contact 1 payload db_two_owners alice = Ok (o, db') /\
    map id (table db') = [2; 4; 1] /\
    Permutation (map (fun r => (id r, user_id r)) (table db'))
                (map (fun r => (id r, user_id r)) (table db_two_owners)) /\
    List.length (table db') = List.length (table db_two_owners) /\
    next_id db' = next_id db_two_owners.
Proof.
  split; [exact db_two_owners_primary_key|].
  eexists. eexists.
  assert (H : update_contact 1 payload db_two_owners alice
              = Ok (Some (mkContact (key 1) "Anna" "Lee-Roy" "anna@example.com"
                            "0509998877" (mkDate 1990 1 3) None 1),
                    mkSession
                      [june; ann_of_bob;
                       mkContact (key 1) "Anna" "Lee-Roy" "anna@example.com"
                         "0509998877" (mkDate 1990 1 3) None 1] 5 1))
    by reflexivity.
  split; [exact H|]. split; [reflexivity|].
  exact (update_contact_keeps_ids_and_owners 1 payload db_two_owners _ alice _
           db_two_owners_primary_key H).
Defined.

Lemma update_contact_twice_witness :
  NoDup (map id (table db_two_owners)) /\ In ann (table db_two_owners) /\
  user_id ann = uid alice /\
  exists c' db1 db2,
    update_contact (id ann) payload db_two_owners alice = Ok (Some c', db1) /\
    update_contact (id ann) payload db1 alice = Ok (Some c', db2) /\
    table db2 = table db1 /\
    commits db2 = S (S (commits db_two_owners)).
Proof.
  assert (H2 : In ann (table db_two_owners)) by (cbn; tauto).
  assert (H3 : user_id ann = uid alice) by reflexivity.
  split; [exact db_two_owners_primary_key|]. repeat (split; [assumption|]).
  exact (update_contact_twice db_two_owners alice ann payload
           db_two_owners_primary_key H2 H3).
Defined.

Lemma delete_contact_twice_witness :
  NoDup (map id (table db_two_owners)) /\ In ann (table db_two_owners) /\
  user_id ann = uid alice /\
  exists db1,
    delete_contact (id ann) db_two_owners alice = Ok (Some ann, db1) /\
    S (List.length (table db1)) = List.length (table db_two_owners) /\
    get_contact (id ann) db1 alice = Ok None /\
    delete_contact (id ann) db1 alice = Ok (None, db1).
Proof.
  assert (H2 : In ann (table db_two_owners)) by (cbn; tauto).
  assert (H3 : user_id ann = uid alice) by reflexivity.
  split; [exact db_two_owners_primary_key|]. repeat (split; [assumption|]).
  exact (delete_contact_twice db_two_owners alice ann
           db_two_owners_primary_key H2 H3).
Defined.

Lemma get_contacts_pages_join_witness :
  0 <= 10 /\ 0 <= 20 /\ 0 <= 3 /\ 10 + 20 <= INT8_MAX /\ 3 + 10 <= INT8_MAX /\
  exists p1 p2,
    get_contacts 10 3 db_twenty alice = Ok p1 /\
    get_contacts 20 (3 + 10) db_twenty alice = Ok p2 /\
    get_contacts (10 + 20) 3 db_twenty alice = Ok (p1 ++ p2).
Proof.
  assert (H1 : 0 <= 10) by by_eval.
  assert (H2 : 0 <= 20) by by_eval.
  assert (H3 : 0 <= 3) by by_eval.
  assert (H4 : 10 + 20 <= INT8_MAX) by by_eval.
  assert (H5 : 3 + 10 <= INT8_MAX) by by_eval.
  repeat (split; [assumption|]).
  exact (get_contacts_pages_join 10 20 3 db_twenty alice H1 H2 H3 H4 H5).
Defined.

Lemma get_contacts_ends_witness :
  0 <= 10 <= INT8_MAX /\ 0 <= 15 <= INT8_MAX /\
  Z.of_nat (List.length (filter (owned_by alice) (table db_twenty))) <= 15 /\
  INT8_MAX < 9223372036854775808 /\
  get_contacts 10 15 db_twenty alice = Ok [] /\
  get_contacts 15 0 db_twenty alice
  = Ok (filter (owned_by alice) (table db_twenty)) /\
  get_contacts 10 9223372036854775808 db_twenty alice = Err DataError.
Proof.
  assert (H1 : 0 <= 10 <= INT8_MAX) by (split; by_eval).
  assert (H2 : 0 <= 15 <= INT8_MAX) by (split; by_eval).
  assert (H3 : Z.of_nat (List.length (filter (owned_by alice) (table db_twenty)))
               <= 15) by by_eval.
  assert (H4 : INT8_MAX < 9223372036854775808) by reflexivity.
  repeat (split; [assumption|]). split; [|split].
  - exact (proj1 (get_contacts_ends 10 15 db_twenty alice H1) H2 H3).
  - exact (proj1 (proj2 (get_contacts_ends 15 0 db_twenty alice H2)) H3).
  - exact (proj2 (proj2 (get_contacts_ends 10 9223372036854775808 db_twenty
                           alice H1)) H4).
Defined.

Lemma get_contacts_route_witness :
  (9 < 10 \/ 500 < 9 \/ 0 < 0) /\
  Routes.get_contacts 9 0 db_twenty alice = Routes.validation_error /\
  10 <= 10 <= 500 /\ 0 <= 10 <= INT8_MAX /\
  INT8_MAX < 9223372036854775808 /\
  (exists page,
     Routes.get_contacts 10 10 db_twenty alice
     = Routes.mkResponse 200 (Routes.Contacts page) /\
     (List.length page <= 500)%nat /\
     forall c, In c page -> In c (table db_twenty) /\ user_id c = uid alice) /\
  Routes.get_contacts 10 9223372036854775808 db_twenty alice
  = Routes.server_error.
Proof.
  assert (H1 : 9 < 10 \/ 500 < 9 \/ 0 < 0) by (left; reflexivity).
  assert (H2 : 10 <= 10 <= 500) by (split; by_eval).
  assert (H3 : 0 <= 10 <= INT8_MAX) by (split; by_eval).
  assert (H4 : INT8_MAX < 9223372036854775808) by reflexivity.
  split; [exact H1|].
  split; [exact (proj1 (get_contacts_route 9 0 db_twenty alice) H1)|].
  repeat (split; [assumption|]). split.
  - exact (proj1 (proj2 (get_contacts_route 10 10 db_twenty alice)) H2 H3).
  - exact (proj2 (proj2 (get_contacts_route 10 9223372036854775808 db_twenty
                           alice)) H2 H4).
Defined.

Lemma reads_owner_scoped_witness :
  get_birthday_contacts 5 db_two_owners alice dec30 = Ok [ann] /\
  forall c, In c [ann] -> In c (table db_two_owners) /\ user_id c = uid alice.
Proof.
  assert (H : get_birthday_contacts 5 db_two_owners alice dec30 = Ok [ann])
    by (vm_compute; reflexivity).
  split; [exact H|].
  exact (proj2 (proj2 (reads_owner_scoped db_two_owners alice)) 5 dec30 [ann] H).
Defined.

Lemma mutations_leave_other_owners_witness :
  NoDup (map id (table db_two_owners)) /\ user_id ann <> uid bob /\
  update_contact 1 payload db_two_owners bob = Ok (None, db_two_owners) /\
  (In ann (table db_two_owners) <-> In ann (table db_two_owners)) /\
  delete_contact 4 db_two_owners bob
  = Ok (Some ann_of_bob, mkSession [ann; june] 5 1) /\
  (In ann (table (mkSession [ann; june] 5 1)) <-> In ann (table db_two_owners)).
Proof.
  assert (H1 : user_id ann <> uid bob) by by_eval.
  assert (H2 : update_contact 1 payload db_two_owners bob
               = Ok (None, db_two_owners)) by reflexivity.
  assert (H3 : delete_contact 4 db_two_owners bob
               = Ok (Some ann_of_bob, mkSession [ann; june] 5 1))
    by reflexivity.
  split; [exact db_two_owners_primary_key|]. split; [exact H1|].
  split; [exact H2|]. split.
  - exact (proj1 (proj2 (mutations_leave_other_owners db_two_owners
                           db_two_owners bob ann db_two_owners_primary_key H1))
             1 payload None H2).
  - split; [exact H3|].
    exact (proj2 (proj2 (mutations_leave_other_owners db_two_owners
                           (mkSession [ann; june] 5 1) bob ann
                           db_two_owners_primary_key H1))
             4 (Some ann_of_bob) H3).
Defined.

Lemma get_contact_route_witness :
  NoDup (map id (table db_two_owners)) /\ In ann (table db_two_owners) /\
  user_id ann = uid alice /\ uid alice <> uid bob /\
  int4 9 = true /\ (forall r, In r (table db_two_owners) -> id r <> 9) /\
  int4 2147483648 = false /\
  Routes.get_contact (id ann) db_two_owners alice
  = Routes.mkResponse 200 (Routes.OneContact ann) /\
  Routes.get_contact (id ann) db_two_owners bob
  = Routes.mkResponse 404 (Routes.Detail "Contact not found") /\
  Routes.get_contact (id ann) db_two_owners bob
  = Routes.get_contact 9 db_two_owners bob /\
  Routes.get_contact 2147483648 db_two_owners bob = Routes.server_error.
Proof.
  assert (H2 : In ann (table db_two_owners)) by (cbn; tauto).
  assert (H3 : user_id ann = uid alice) by reflexivity.
  assert (H4 : uid alice <> uid bob) by by_eval.
  assert (H6 : int4 9 = true) by reflexivity.
  assert (H7 : forall r, In r (table db_two_owners) -> id r <> 9)
    by (each_row; by_eval).
  assert (H8 : int4 2147483648 = false) by reflexivity.
  split; [exact db_two_owners_primary_key|]. repeat (split; [assumption|]).
  destruct (get_contact_route db_two_owners alice bob ann 9
              db_two_owners_primary_key H2 H3 H4) as [Ha [Hb [Hm _]]].
  split; [exact Ha|]. split; [exact Hb|]. split; [exact (Hm H6 H7)|].
  exact (proj2 (proj2 (proj2 (get_contact_route db_two_owners alice bob ann
                                2147483648 db_two_owners_primary_key
                                H2 H3 H4))) H8).
Defined.

End MoreChecks.
